(** * A shallow embedding of the voting backend ([server.js])

  The server is one Express application over three external
  collaborators: the identity verifier ([admin.auth()]), the document
  store ([admin.firestore()]) and the LinkedIn OAuth endpoints.  The
  embedding keeps the code's shape:

  - JavaScript values that flow in from JSON bodies and token claims are
    a small value type [JsVal] with the language's truthiness and [||];
  - the store is a pair of finite maps keyed by document id;
  - the body of [db.runTransaction] is a program in a small transaction
    monad [Tx] (reads, buffered writes, [throw]); it is written once and
    run by two executors, an atomic one and an interleaved one;
  - every route handler is a function from the collaborators' answers
    for this request ([Env]), the current [World] and the [Request] to a
    [Response] and the next [World].

  Model boundary: a request is one that reached its route, that is, it
  passed the rate limiter and the JSON body parser.  Vote counts are
  unbounded integers.  A candidate id from the request body is resolved
  as a document path, as the client library does; a uid is a document id
  as the identity service issues it.  The store holds the two collections
  of the specification and no subcollections. *)

From Stdlib Require Import ZArith String List Lia.
From stdpp Require Import base option list gmap strings fin_maps relations.

Local Open Scope string_scope.
Local Open Scope list_scope.
Set Warnings "-register-all".

(* ===================================================================== *)
(** ** JavaScript values *)
(* ===================================================================== *)

Module Js.

(** JSON-shaped values; numbers are restricted to integers, which is all
    that truthiness needs. *)
Inductive JsVal : Type :=
| JUndefined
| JNull
| JBool (b : bool)
| JNum (n : Z)
| JStr (s : string)
| JArr (items : list JsVal)
| JObj (fields : list (string * JsVal)).

(** [ToBoolean]: [undefined], [null], [false], [0] and [""] are falsy,
    every object is truthy. *)
Definition truthy (v : JsVal) : bool :=
  match v with
  | JUndefined | JNull => false
  | JBool b => b
  | JNum n => negb (n =? 0)%Z
  | JStr s => negb (String.eqb s "")
  | JArr _ | JObj _ => true
  end.

(** [a || b] *)
Definition js_or (a b : JsVal) : JsVal := if truthy a then a else b.

(** [s.startsWith(p)] *)
Definition startsWith (s p : string) : bool := String.prefix p s.

(** [s.split(sep)] for a non-empty separator: [skip] counts the
    characters of a separator that was just matched, [cur] is the piece
    being collected. *)
Fixpoint split_from (sep : string) (skip : nat) (cur : string) (s : string)
  : list string :=
  match s with
  | EmptyString => [cur]
  | String c s' =>
      match skip with
      | S k => split_from sep k cur s'
      | O =>
          if String.prefix sep s
          then cur :: split_from sep (String.length sep - 1) "" s'
          else split_from sep 0 (cur +:+ String c "") s'
      end
  end.

Definition split (s sep : string) : list string := split_from sep 0 "" s.

(** A thrown [Error]; only its [message] is ever inspected. *)
Record Error : Type := mkError { message : string }.

(** The outcome of an expression that may throw. *)
Inductive Result (A : Type) : Type :=
| Ok (a : A)
| Throw (e : Error).
Arguments Ok {A} a.
Arguments Throw {A} e.

(** [error.message || fallback] on strings. *)
Definition message_or (e : Error) (fallback : string) : string :=
  if String.eqb (message e) "" then fallback else message e.

End Js.
Import Js.

(* ===================================================================== *)
(** ** The document store and its transactions *)
(* ===================================================================== *)

Module Firestore.

(** A document of the [voters] collection, keyed by the voter's uid. *)
Record VoterDoc : Type := mkVoter {
  name : JsVal;
  candidateId : JsVal;
  linkedInProfile : JsVal;
  votedAt : option nat
}.

(** Modelled from the spec: the fields of a document of the [candidates]
    collection, keyed by candidate id.  Candidates are seeded outside the
    source; section 3 gives a candidate a display name and an integer vote
    count, and [votes] is the field the code increments. *)
Record CandidateDoc : Type := mkCandidate {
  cname : string;
  votes : Z
}.

Record Store : Type := mkStore {
  voters : gmap string VoterDoc;
  candidates : gmap string CandidateDoc
}.

(** What [transaction.set(voterRef, {...})] is given: [votedAt] is the
    [FieldValue.serverTimestamp()] sentinel, resolved at commit. *)
Record VoterData : Type := mkVoterData {
  d_name : JsVal;
  d_candidateId : JsVal;
  d_linkedInProfile : JsVal
}.

Inductive Write : Type :=
| WSet (voterRef : string) (data : VoterData)
| WIncrement (candidateRef : string) (by_ : Z).

(** The checks the client library makes on what the source hands it; their
    rules and their error texts are the library's. *)
Record Library : Type := mkLibrary {
  (* the check of a document path argument: [Some e] refuses it *)
  path_refused : string → option Error;
  (* the error for a path that does not point to a document *)
  not_a_document : string → Error;
  (* the check of the data given to [set]: [Some e] refuses it *)
  data_refused : VoterData → option Error
}.

(** The segments of a path relative to a collection: split at [/], empty
    segments dropped, so a leading or trailing slash does not count. *)
Definition segments (documentPath : string) : list string :=
  List.filter (fun segment => negb (String.eqb segment ""))
    (split documentPath "/").

(** The document that [collection.doc(documentPath)] refers to, as its
    path below the collection.  The path points to a document when it has
    an odd number of segments: one segment is the document of that id in
    the collection itself, more segments are a document of a
    subcollection, which no store of the specification has. *)
Definition document_key (lib : Library) (documentPath : string) : Result string :=
  match path_refused lib documentPath with
  | Some e => Throw e
  | None =>
      if Nat.odd (length (segments documentPath))
      then Ok (String.concat "/" (segments documentPath))
      else Throw (not_a_document lib documentPath)
  end.

(** Programs of a transaction callback. *)
Inductive Tx (A : Type) : Type :=
| TxRet (a : A)
| TxThrow (e : Error)
| TxGetVoter (voterRef : string) (k : option VoterDoc → Tx A)
| TxGetCandidate (candidateRef : string) (k : option CandidateDoc → Tx A)
| TxWrite (w : Write) (k : Tx A).
Arguments TxRet {A} a.
Arguments TxThrow {A} e.
Arguments TxGetVoter {A} voterRef k.
Arguments TxGetCandidate {A} candidateRef k.
Arguments TxWrite {A} w k.

Fixpoint tx_bind {A B : Type} (m : Tx A) (f : A → Tx B) : Tx B :=
  match m with
  | TxRet a => f a
  | TxThrow e => TxThrow e
  | TxGetVoter r k => TxGetVoter r (fun d => tx_bind (k d) f)
  | TxGetCandidate r k => TxGetCandidate r (fun d => tx_bind (k d) f)
  | TxWrite w k => TxWrite w (tx_bind k f)
  end.

#[global] Instance tx_ret : MRet Tx := @TxRet.
#[global] Instance tx_mbind : MBind Tx := fun A B f m => tx_bind m f.

(** [transaction.get(voterRef)] *)
Definition transaction_get_voter (voterRef : string) : Tx (option VoterDoc) :=
  TxGetVoter voterRef TxRet.

(** [transaction.get(candidateRef)] *)
Definition transaction_get_candidate (candidateRef : string)
  : Tx (option CandidateDoc) :=
  TxGetCandidate candidateRef TxRet.

(** [transaction.set(voterRef, data)]: the library checks the data when
    the call is made and throws inside the callback if it refuses it. *)
Definition transaction_set (lib : Library) (voterRef : string)
    (data : VoterData) : Tx unit :=
  match data_refused lib data with
  | Some e => TxThrow e
  | None => TxWrite (WSet voterRef data) (TxRet tt)
  end.

(** [transaction.update(candidateRef, { votes: FieldValue.increment(n) })] *)
Definition transaction_update (candidateRef : string) (n : Z) : Tx unit :=
  TxWrite (WIncrement candidateRef n) (TxRet tt).

(** [throw new Error(msg)] *)
Definition throw {A : Type} (msg : string) : Tx A := TxThrow (mkError msg).

(** [doc.exists] *)
Definition exists_ {D : Type} (doc : option D) : bool :=
  match doc with Some _ => true | None => false end.

(** One buffered write applied at commit time [now].  [set] creates or
    replaces the document; [update] of a missing document makes the
    commit fail. *)
Definition apply_write (now : nat) (w : Write) (st : Store) : option Store :=
  match w with
  | WSet ref data =>
      Some (mkStore
              (<[ref := mkVoter (d_name data) (d_candidateId data)
                                (d_linkedInProfile data) (Some now)]> (voters st))
              (candidates st))
  | WIncrement ref n =>
      match candidates st !! ref with
      | Some c =>
          Some (mkStore (voters st)
                        (<[ref := mkCandidate (cname c) (votes c + n)]> (candidates st)))
      | None => None
      end
  end.

Fixpoint apply_writes (now : nat) (ws : list Write) (st : Store) : option Store :=
  match ws with
  | [] => Some st
  | w :: ws' =>
      match apply_write now w st with
      | Some st' => apply_writes now ws' st'
      | None => None
      end
  end.

(** Running a callback against one snapshot: reads see [snap], writes are
    buffered in program order. *)
Fixpoint run_body {A : Type} (snap : Store) (m : Tx A) (ws : list Write)
  : Result (A * list Write) :=
  match m with
  | TxRet a => Ok (a, ws)
  | TxThrow e => Throw e
  | TxGetVoter r k => run_body snap (k (voters snap !! r)) ws
  | TxGetCandidate r k => run_body snap (k (candidates snap !! r)) ws
  | TxWrite w k => run_body snap k (ws ++ [w])
  end.

(** The operations a callback issues against a snapshot, in order. *)
Inductive Op : Type :=
| OpGetVoter (voterRef : string)
| OpGetCandidate (candidateRef : string)
| OpWrite (w : Write).

Fixpoint ops_of {A : Type} (snap : Store) (m : Tx A) : list Op :=
  match m with
  | TxRet _ | TxThrow _ => []
  | TxGetVoter r k => OpGetVoter r :: ops_of snap (k (voters snap !! r))
  | TxGetCandidate r k =>
      OpGetCandidate r :: ops_of snap (k (candidates snap !! r))
  | TxWrite w k => OpWrite w :: ops_of snap k
  end.

(** The store's error for a commit that updates a document that does not
    exist, named after its status code.  The voting callback never meets
    it: it updates a candidate only after reading that it exists. *)
Definition not_found : Error := mkError "NOT_FOUND".

(** [db.runTransaction(callback)] when nothing else touches the store
    meanwhile.  [fault] is an infrastructure failure that makes the call
    fail before the callback has read anything; otherwise a throwing
    callback rolls back and rethrows, a returning one commits its buffered
    writes together. *)
Definition runTransaction {A : Type} (fault : option Error) (now : nat)
    (callback : Tx A) (st : Store) : Result A * Store :=
  match fault with
  | Some e => (Throw e, st)
  | None =>
      match run_body st callback [] with
      | Throw e => (Throw e, st)
      | Ok (a, ws) =>
          match apply_writes now ws st with
          | Some st' => (Ok a, st')
          | None => (Throw not_found, st)
          end
      end
  end.

End Firestore.
Import Firestore.


(* ===================================================================== *)
(** ** The voting transaction *)
(* ===================================================================== *)

Module Voting.

Definition already_voted : string := "You have already voted".
Definition candidate_not_found : string := "Candidate not found".

(** The callback handed to [db.runTransaction] by [POST /api/vote]; its
    parameters are the client library and the variables it closes over:
    the two document references, [name], [candidateId] and
    [linkedInProfile]. *)
Definition vote_txn (lib : Library) (voterRef candidateRef : string)
    (name candidateId linkedInProfile : JsVal) : Tx unit :=
  voterDoc ← transaction_get_voter voterRef;
  if exists_ voterDoc then throw already_voted else
  candidateDoc ← transaction_get_candidate candidateRef;
  if negb (exists_ candidateDoc) then throw candidate_not_found else
  transaction_set lib voterRef
    (mkVoterData name candidateId (js_or linkedInProfile JNull));;
  transaction_update candidateRef 1.

(** The outcomes of the contract [castVote]. *)
Inductive Outcome : Type :=
| Success
| AlreadyVoted
| CandidateNotFound
| Failure (e : Error).

Definition outcome_of (r : Result unit) : Outcome :=
  match r with
  | Ok _ => Success
  | Throw e =>
      if String.eqb (message e) already_voted then AlreadyVoted
      else if String.eqb (message e) candidate_not_found then CandidateNotFound
      else Failure e
  end.

(** [castVote]: the candidate reference is built from the candidate id,
    which can already throw, and the transaction is run to completion on
    a healthy store at commit time [now].  The voter reference is the
    document keyed by the subject; the stored [candidateId] is the id as
    given. *)
Definition castVote (lib : Library) (now : nat) (subjectId : string)
    (name : JsVal) (candidateId : string) (profileRef : JsVal) (st : Store)
  : Outcome * Store :=
  match document_key lib candidateId with
  | Throw e => (outcome_of (Throw e), st)
  | Ok candidateRef =>
      let '(r, st') :=
        runTransaction None now
          (vote_txn lib subjectId candidateRef name (JStr candidateId) profileRef)
          st in
      (outcome_of r, st')
  end.

(** The algorithm of the specification, section 4.1, step by step; it is
    the reference [castVote] is compared with. *)
Definition castVote_spec (now : nat) (subjectId : string) (name : JsVal)
    (candidateId : string) (profileRef : JsVal) (st : Store) : Outcome * Store :=
  match voters st !! subjectId with
  | Some _ => (AlreadyVoted, st)
  | None =>
      match candidates st !! candidateId with
      | None => (CandidateNotFound, st)
      | Some c =>
          (Success,
           mkStore
             (<[subjectId := mkVoter name (JStr candidateId)
                               (if truthy profileRef then profileRef else JNull)
                               (Some now)]> (voters st))
             (<[candidateId := mkCandidate (cname c) (votes c + 1)]>
                (candidates st)))
      end
  end.

End Voting.
Import Voting.

(* ===================================================================== *)
(** ** The HTTP surface *)
(* ===================================================================== *)

Module Server.

(** The routes registered on [app], in source order. *)
Inductive Route : Type :=
| AuthLinkedin            (* GET  /auth/linkedin *)
| AuthLinkedinCallback    (* GET  /auth/linkedin/callback *)
| ApiVote                 (* POST /api/vote *)
| ApiCandidates           (* GET  /api/candidates *)
| ApiVoters               (* GET  /api/voters *)
| MakeAdmin               (* POST /make-admin *)
| Health.                 (* GET  / *)

(** The parts of [req] the handlers read. *)
Record Request : Type := mkRequest {
  route : Route;
  authorization : option string;      (* req.headers.authorization *)
  query_code : JsVal;                 (* req.query.code *)
  body_candidateId : JsVal;           (* req.body.candidateId *)
  body_linkedInProfile : JsVal;       (* req.body.linkedInProfile *)
  body_uid : JsVal                    (* req.body.uid *)
}.

(** What [verifyIdToken] resolves to, as far as the handlers look. *)
Record DecodedToken : Type := mkToken {
  uid : string;
  displayName : JsVal;
  admin : JsVal
}.

(** One element of the [/api/voters] answer; [v_votedAt] stands for the
    ISO rendering of the instant. *)
Record VoterView : Type := mkVoterView {
  v_userId : string;
  v_name : JsVal;
  v_linkedInProfile : JsVal;
  v_candidateId : JsVal;
  v_votedAt : option nat
}.

Inductive Payload : Type :=
| PMessage (message : string)              (* { message } *)
| PError (message : string) (error : string)   (* { message, error } *)
| PCandidates (l : list (string * CandidateDoc))   (* [{ id, ...data }] *)
| PVoters (l : list VoterView)
| PText (text : string)                    (* res.send(text) *)
| PLoginPage (firebaseToken : string)      (* the page that posts the token *)
| PRedirect (url : string).

Record Response : Type := mkResponse {
  status : nat;
  payload : Payload
}.

(** Calls made on the external collaborators, in order. *)
Inductive Call : Type :=
| CVerifyIdToken (idToken : option string)
| CRunTransaction (voterRef candidateRef : string)
| CGetCandidates
| CGetVoters
| CSetCustomUserClaims (uid : JsVal)
| CLinkedinExchange (code : JsVal).

(** The collaborators' side of one request: what each external call
    answers, and the process environment. *)
Record Env : Type := mkEnv {
  verifyIdToken : string → Result DecodedToken;
  (* the client library's check of a document path: [Some e] refuses it *)
  doc_refused : string → option Error;
  doc_not_a_string : Error;
  (* an infrastructure failure of the store call of this request *)
  store_fault : option Error;
  (* the store's clock at commit *)
  now : nat;
  (* [setCustomUserClaims]: refusal or upstream failure for a uid *)
  claims_refused : string → option Error;
  uid_not_a_string : Error;
  (* the code exchange, the two profile reads and [createCustomToken] *)
  linkedin_exchange : JsVal → Result string;
  LINKEDIN_CLIENT_ID : string;
  LINKEDIN_REDIRECT_URI : string;
  (* the store's client library *)
  lib : Library
}.

Record World : Type := mkWorld {
  db : Store;
  claims : gmap string bool;          (* uid ↦ the [admin] custom claim *)
  calls : list Call
}.

Definition log (c : Call) (w : World) : World :=
  mkWorld (db w) (claims w) (calls w ++ [c]).

Definition json (code : nat) (p : Payload) : Response := mkResponse code p.

(** [db.collection("voters").doc(userId)]: a uid is a document id as the
    identity service issues it, so unless the library refuses it the
    reference is the document keyed by the uid itself. *)
Definition voter_doc (env : Env) (userId : string) : Result string :=
  match doc_refused env userId with
  | Some e => Throw e
  | None => Ok userId
  end.

(** [db.collection("candidates").doc(candidateId)]: the value comes from
    the request body; anything but a string is refused, a string is
    resolved as a document path. *)
Definition doc (env : Env) (documentPath : JsVal) : Result string :=
  match documentPath with
  | JStr s => document_key (lib env) s
  | _ => Throw (doc_not_a_string env)
  end.

(** [verifyUser]: either answers itself or sets [req.user] and calls
    [next()]. *)
Definition verifyUser (env : Env) (req : Request) (w : World)
  : (Response + DecodedToken) * World :=
  match authorization req with
  | None => (inl (json 401 (PMessage "Unauthorized")), w)
  | Some authHeader =>
      if String.eqb authHeader "" || negb (startsWith authHeader "Bearer ")
      then (inl (json 401 (PMessage "Unauthorized")), w)
      else
        let idToken := split authHeader "Bearer " !! 1%nat in
        let w' := log (CVerifyIdToken idToken) w in
        match idToken with
        | None => (inl (json 401 (PMessage "Invalid or expired token")), w')
        | Some t =>
            match verifyIdToken env t with
            | Ok decodedToken => (inr decodedToken, w')
            | Throw _ => (inl (json 401 (PMessage "Invalid or expired token")), w')
            end
        end
  end.

(** [requireAdmin]: [None] is [next()]. *)
Definition requireAdmin (user : DecodedToken) : option Response :=
  if negb (truthy (admin user))
  then Some (json 403 (PMessage "Access denied (Admin only)"))
  else None.

(** The [try] block of [POST /api/vote] after the candidate id check. *)
Definition vote_try (env : Env) (userId : string) (name candidateId
    linkedInProfile : JsVal) (w : World) : Result unit * World :=
  match voter_doc env userId with
  | Throw e => (Throw e, w)
  | Ok voterRef =>
      match doc env candidateId with
      | Throw e => (Throw e, w)
      | Ok candidateRef =>
          let '(r, st') :=
            runTransaction (store_fault env) (now env)
              (vote_txn (lib env) voterRef candidateRef name candidateId
                 linkedInProfile)
              (db w) in
          (r, mkWorld st' (claims w)
                (calls w ++ [CRunTransaction voterRef candidateRef]))
      end
  end.

(** The handler of [POST /api/vote], after [verifyUser]. *)
Definition vote (env : Env) (user : DecodedToken) (req : Request) (w : World)
  : Response * World :=
  let userId := uid user in
  let name := js_or (displayName user) (JStr "Anonymous") in
  let candidateId := body_candidateId req in
  let linkedInProfile := body_linkedInProfile req in
  if negb (truthy candidateId)
  then (json 400 (PMessage "Candidate ID required"), w)
  else
    match vote_try env userId name candidateId linkedInProfile w with
    | (Ok _, w') => (json 200 (PMessage "Vote successful!"), w')
    | (Throw error, w') =>
        (json 400 (PMessage (message_or error "Voting failed")), w')
    end.

(** The handler of [GET /api/candidates]. *)
Definition list_candidates (env : Env) (w : World) : Response * World :=
  let w' := log CGetCandidates w in
  match store_fault env with
  | Some error =>
      (json 500 (PError "Error fetching candidates" (message error)), w')
  | None =>
      let candidates := map_to_list (candidates (db w)) in
      (json 200 (PCandidates candidates), w')
  end.

(** The handler of [GET /api/voters], after [verifyUser]. *)
Definition list_voters (env : Env) (w : World) : Response * World :=
  let w' := log CGetVoters w in
  match store_fault env with
  | Some error =>
      (json 500 (PError "Error fetching voters" (message error)), w')
  | None =>
      let voters :=
        (fun d : string * VoterDoc =>
           let data := d.2 in
           mkVoterView d.1 (name data) (linkedInProfile data)
             (candidateId data) (votedAt data))
        <$> map_to_list (voters (db w)) in
      (json 200 (PVoters voters), w')
  end.

(** [admin.auth().setCustomUserClaims(uid, { admin: true })] *)
Definition setCustomUserClaims (env : Env) (uid : JsVal) (w : World)
  : Result unit * World :=
  let w' := log (CSetCustomUserClaims uid) w in
  match uid with
  | JStr s =>
      match claims_refused env s with
      | Some e => (Throw e, w')
      | None => (Ok tt, mkWorld (db w') (<[s := true]> (claims w')) (calls w'))
      end
  | _ => (Throw (uid_not_a_string env), w')
  end.

(** The handler of [POST /make-admin], after [verifyUser] and
    [requireAdmin]. *)
Definition make_admin (env : Env) (req : Request) (w : World)
  : Response * World :=
  let uid := body_uid req in
  if negb (truthy uid) then (json 400 (PMessage "UID required"), w)
  else
    match setCustomUserClaims env uid w with
    | (Ok _, w') => (json 200 (PMessage "User is now admin!"), w')
    | (Throw error, w') =>
        (json 500 (PError "Error setting admin" (message error)), w')
    end.

(** The handler of [GET /auth/linkedin]. *)
Definition auth_linkedin (env : Env) (w : World) : Response * World :=
  let scope := "r_liteprofile r_emailaddress" in
  let linkedinAuthUrl :=
    "https://www.linkedin.com/oauth/v2/authorization?response_type=code&client_id="
    +:+ LINKEDIN_CLIENT_ID env +:+ "&redirect_uri=" +:+ LINKEDIN_REDIRECT_URI env
    +:+ "&scope=" +:+ scope in
  (mkResponse 302 (PRedirect linkedinAuthUrl), w).

(** The handler of [GET /auth/linkedin/callback]. *)
Definition auth_linkedin_callback (env : Env) (req : Request) (w : World)
  : Response * World :=
  let code := query_code req in
  if negb (truthy code)
  then (mkResponse 400 (PText "No code received from LinkedIn"), w)
  else
    let w' := log (CLinkedinExchange code) w in
    match linkedin_exchange env code with
    | Ok firebaseToken => (mkResponse 200 (PLoginPage firebaseToken), w')
    | Throw _ => (mkResponse 500 (PText "LinkedIn login failed"), w')
    end.

(** A request through the middleware chain of its route. *)
Definition handle (env : Env) (w : World) (req : Request) : Response * World :=
  match route req with
  | AuthLinkedin => auth_linkedin env w
  | AuthLinkedinCallback => auth_linkedin_callback env req w
  | ApiVote =>
      match verifyUser env req w with
      | (inl res, w') => (res, w')
      | (inr user, w') => vote env user req w'
      end
  | ApiCandidates => list_candidates env w
  | ApiVoters =>
      match verifyUser env req w with
      | (inl res, w') => (res, w')
      | (inr user, w') => list_voters env w'
      end
  | MakeAdmin =>
      match verifyUser env req w with
      | (inl res, w') => (res, w')
      | (inr user, w') =>
          match requireAdmin user with
          | Some res => (res, w')
          | None => make_admin env req w'
          end
      end
  | Health => (mkResponse 200 (PText "Voting Backend Running ✅"), w)
  end.

End Server.
Import Server.

(* ===================================================================== *)
(** ** Histories of requests *)
(* ===================================================================== *)

Module History.

(** One request served: the world moves from [w] to [w']. *)
Definition step (w w' : World) : Prop :=
  ∃ env req, (handle env w req).2 = w'.

Definition reachable (w0 w : World) : Prop := rtc step w0 w.

(** Serving a list of requests one after the other. *)
Fixpoint run (w : World) (reqs : list (Env * Request)) : list Response * World :=
  match reqs with
  | [] => ([], w)
  | (env, req) :: rest =>
      let '(res, w') := handle env w req in
      let '(ress, w'') := run w' rest in
      (res :: ress, w'')
  end.

(** The subject whose vote this request commits, if it is a vote that is
    answered 200. *)
Definition committed_vote (env : Env) (w : World) (req : Request) : option string :=
  match route req with
  | ApiVote =>
      match verifyUser env req w with
      | (inr user, w1) =>
          if (status (vote env user req w1).1 =? 200)%nat
          then Some (uid user) else None
      | (inl _, _) => None
      end
  | _ => None
  end.

(** The subjects of the votes answered 200 along a history, oldest first. *)
Fixpoint has_voted (w : World) (reqs : list (Env * Request)) : list string :=
  match reqs with
  | [] => []
  | (env, req) :: rest =>
      match committed_vote env w req with
      | Some s => s :: has_voted (handle env w req).2 rest
      | None => has_voted (handle env w req).2 rest
      end
  end.

(** The candidates of [st'] are those of [st], same names, with counts at
    least as large. *)
Definition grows (st st' : Store) : Prop :=
  ∀ id,
    match candidates st !! id, candidates st' !! id with
    | Some c, Some c' => cname c' = cname c ∧ (votes c ≤ votes c')%Z
    | None, None => True
    | _, _ => False
    end.

End History.
Import History.

(* ===================================================================== *)
(** ** Interleaved transactions *)
(* ===================================================================== *)

(** The transaction executor when several clients are inside
    [runTransaction] at once.  The callback is the source's; how the store
    schedules it is the contract that sections 4.1 and 5 of the
    specification rely on. *)
Module Interleaving.

(** What one voting callback closes over: the client library, the two
    document references and the three values of the record. *)
Record VoteArgs : Type := mkVoteArgs {
  arg_lib : Library;
  voterRef : string;
  candidateRef : string;
  arg_name : JsVal;
  arg_candidateId : JsVal;
  arg_linkedInProfile : JsVal
}.

Definition callback_of (a : VoteArgs) : Tx unit :=
  vote_txn (arg_lib a) (voterRef a) (candidateRef a) (arg_name a)
    (arg_candidateId a) (arg_linkedInProfile a).

(** A client inside [runTransaction]: the rest of the current attempt,
    what it has read and buffered so far, and its result once settled. *)
Record Client : Type := mkClient {
  args : VoteArgs;
  pc : Tx unit;
  voter_reads : list (string * option VoterDoc);
  candidate_reads : list (string * option CandidateDoc);
  buffered : list Write;
  attempt_no : nat;
  result : option (Result unit)
}.

Definition start (a : VoteArgs) : Client :=
  mkClient a (callback_of a) [] [] [] 0 None.

Definition restart (c : Client) : Client :=
  mkClient (args c) (callback_of (args c)) [] [] [] (S (attempt_no c)) None.

Definition settle (r : Result unit) (c : Client) : Client :=
  mkClient (args c) (pc c) (voter_reads c) (candidate_reads c) (buffered c)
    (attempt_no c) (Some r).

Definition reads_valid (st : Store) (c : Client) : Prop :=
  (∀ r d, (r, d) ∈ voter_reads c → voters st !! r = d) ∧
  (∀ r d, (r, d) ∈ candidate_reads c → candidates st !! r = d).

(** Modelled from the spec: the moves of one client of the executor, which
    is the store's and not in the source.  A callback reads and buffers
    writes one operation at a time while other clients commit; a throw
    settles the client without writing; a commit is accepted only if every
    document the attempt read is still as it was read, and then applies
    the buffered writes together; an attempt can be aborted at any point
    and the callback rerun from the start, up to [max_attempts] attempts,
    after which the client fails with the store's error [e]. *)
Inductive client_step (max_attempts : nat)
  : Store → Client → Store → Client → Prop :=
| step_get_voter st c r k :
    result c = None → pc c = TxGetVoter r k →
    client_step max_attempts st c st
      (mkClient (args c) (k (voters st !! r))
         ((r, voters st !! r) :: voter_reads c) (candidate_reads c)
         (buffered c) (attempt_no c) None)
| step_get_candidate st c r k :
    result c = None → pc c = TxGetCandidate r k →
    client_step max_attempts st c st
      (mkClient (args c) (k (candidates st !! r))
         (voter_reads c) ((r, candidates st !! r) :: candidate_reads c)
         (buffered c) (attempt_no c) None)
| step_write st c w k :
    result c = None → pc c = TxWrite w k →
    client_step max_attempts st c st
      (mkClient (args c) k (voter_reads c) (candidate_reads c)
         (buffered c ++ [w]) (attempt_no c) None)
| step_throw st c e :
    result c = None → pc c = TxThrow e →
    client_step max_attempts st c st (settle (Throw e) c)
| step_commit st c now st' :
    result c = None → pc c = TxRet tt → reads_valid st c →
    apply_writes now (buffered c) st = Some st' →
    client_step max_attempts st c st' (settle (Ok tt) c)
| step_commit_refused st c now :
    result c = None → pc c = TxRet tt → reads_valid st c →
    apply_writes now (buffered c) st = None →
    client_step max_attempts st c st (settle (Throw not_found) c)
| step_retry st c :
    result c = None → (S (attempt_no c) < max_attempts)%nat →
    client_step max_attempts st c st (restart c)
| step_give_up st c e :
    result c = None → (max_attempts ≤ S (attempt_no c))%nat →
    client_step max_attempts st c st (settle (Throw e) c).

(** Any client that is not settled may move next. *)
Inductive pool_step (max_attempts : nat)
  : Store * list Client → Store * list Client → Prop :=
| pool_step_at st cs i c st' c' :
    cs !! i = Some c →
    client_step max_attempts st c st' c' →
    pool_step max_attempts (st, cs) (st', <[i := c']> cs).






End Interleaving.
Import Interleaving.

(* ===================================================================== *)
(** ** A seeded election, used for the worked examples *)
(* ===================================================================== *)

Module Demo.

(** Candidates [A] and [B] with no votes, nobody has voted. *)
Definition seeded : Store :=
  mkStore ∅ (<["A" := mkCandidate "Alice" 0]> (<["B" := mkCandidate "Bob" 0]> ∅)).

(** The same election after [u1] voted for [A]. *)
Definition after_u1 : Store :=
  mkStore (<["u1" := mkVoter (JStr "Uma") (JStr "A") JNull (Some 7)]> ∅)
          (<["A" := mkCandidate "Alice" 1]> (<["B" := mkCandidate "Bob" 0]> ∅)).

(** Whether an object has a field whose name is the empty string. *)
Definition empty_field_name (v : JsVal) : bool :=
  match v with
  | JObj fields => existsb (fun f : string * JsVal => String.eqb f.1 "") fields
  | _ => false
  end.

(** A client library with two of the checks of the real one: a document
    path must not be the empty string, and the profile stored in a voter
    record must not have a field with an empty name. *)
Definition sdk : Library :=
  mkLibrary
    (fun documentPath =>
       if String.eqb documentPath ""
       then Some (mkError "Path must be a non-empty string")
       else None)
    (fun _ => mkError "Path must point to a document")
    (fun data =>
       if empty_field_name (d_linkedInProfile data)
       then Some (mkError "Field name must not be empty")
       else None).

Definition token_of (idToken : string) : Result DecodedToken :=
  if String.eqb idToken "token-u1"
  then Ok (mkToken "u1" (JStr "Uma") JUndefined)
  else if String.eqb idToken "token-u2"
  then Ok (mkToken "u2" JUndefined JUndefined)
  else if String.eqb idToken "token-root"
  then Ok (mkToken "root" (JStr "Root") (JBool true))
  else Throw (mkError "Decoding Firebase ID token failed").

(** Every collaborator answers. *)
Definition healthy : Env :=
  mkEnv token_of (fun _ => None) (mkError "documentPath must be a string")
    None 7 (fun _ => None) (mkError "uid must be a string")
    (fun _ => Throw (mkError "no network")) "client-id" "https://vote.example/cb"
    sdk.


Definition world0 : World := mkWorld seeded ∅ [].
Definition world1 : World := mkWorld after_u1 ∅ [].

Definition vote_request (idToken : string) (candidateId : JsVal) : Request :=
  mkRequest ApiVote (Some ("Bearer " +:+ idToken)) JUndefined candidateId
    JUndefined JUndefined.

Definition anonymous_vote_request (candidateId : JsVal) : Request :=
  mkRequest ApiVote None JUndefined candidateId JUndefined JUndefined.

Definition make_admin_request (idToken : string) (uid : JsVal) : Request :=
  mkRequest MakeAdmin (Some ("Bearer " +:+ idToken)) JUndefined JUndefined
    JUndefined uid.

Definition candidates_request : Request :=
  mkRequest ApiCandidates None JUndefined JUndefined JUndefined JUndefined.

(** A vote that also sends a profile. *)
Definition profile_vote_request (idToken : string) (candidateId linkedInProfile
    : JsVal) : Request :=
  mkRequest ApiVote (Some ("Bearer " +:+ idToken)) JUndefined candidateId
    linkedInProfile JUndefined.

(** Two clients of [u1] inside [runTransaction] at once, one voting for
    [A] and one for [B]. *)
Definition race : list VoteArgs :=
  [mkVoteArgs sdk "u1" "A" (JStr "Uma") (JStr "A") JUndefined;
   mkVoteArgs sdk "u1" "B" (JStr "Uma") (JStr "B") JUndefined].

End Demo.

(* ===================================================================== *)
(** ** Bookkeeping used to state what the handlers keep *)
(* ===================================================================== *)

Module Ledger.

(** Whether [sep] occurs somewhere in [s]. *)
Fixpoint occurs (sep s : string) : bool :=
  match s with
  | EmptyString => false
  | String _ s' => String.prefix sep s || occurs sep s'
  end.




(** The three routes that run [verifyUser] first. *)
Definition guarded (r : Route) : bool :=
  match r with
  | ApiVote | ApiVoters | MakeAdmin => true
  | _ => false
  end.

(** The projection [GET /api/voters] applies to a stored record. *)
Definition view_of (userId : string) (data : VoterDoc) : VoterView :=
  mkVoterView userId (name data) (linkedInProfile data) (candidateId data)
    (votedAt data).

(** A request for [GET /api/voters] with a bearer token. *)
Definition voters_request (idToken : string) : Request :=
  mkRequest ApiVoters (Some ("Bearer " +:+ idToken)) JUndefined JUndefined
    JUndefined JUndefined.

(** A request for [GET /auth/linkedin/callback]. *)
Definition callback_request (code : JsVal) : Request :=
  mkRequest AuthLinkedinCallback None code JUndefined JUndefined JUndefined.

End Ledger.
Import Ledger.

Import Demo.

(** One move of client [i] of the pool, by the rule [rule]. *)
Ltac pool_move i rule :=
  eapply rtc_l;
  [ eapply (pool_step_at _ _ _ i); [reflexivity | rule] | cbn ].

Ltac reads_hold :=
  split; intros r d Hin;
  repeat (apply elem_of_cons in Hin as [Hin|Hin];
          [injection Hin as -> ->; vm_compute; reflexivity|]);
  apply elem_of_nil in Hin; contradiction.

(* ===================================================================== *)
(** ** The voting transaction, run atomically *)
(* ===================================================================== *)

Lemma outcome_of_throw e : outcome_of (Throw e) ≠ Success.
Proof.
  unfold outcome_of. destruct (String.eqb (message e) already_voted); [discriminate|].
  destruct (String.eqb (message e) candidate_not_found); discriminate.
Qed.


Section CastVote.

Context (lib : Library) (now : nat) (subjectId : string) (name : JsVal).

(** The callback run at once on a healthy store, case by case. *)
Lemma vote_txn_run r cid profile st :
  runTransaction None now (vote_txn lib subjectId r name cid profile) st =
    match voters st !! subjectId with
    | Some _ => (Throw (mkError already_voted), st)
    | None =>
        match candidates st !! r with
        | None => (Throw (mkError candidate_not_found), st)
        | Some c =>
            match data_refused lib (mkVoterData name cid (js_or profile JNull)) with
            | Some e => (Throw e, st)
            | None =>
                (Ok tt,
                 mkStore
                   (<[subjectId := mkVoter name cid (js_or profile JNull) (Some now)]>
                      (voters st))
                   (<[r := mkCandidate (cname c) (votes c + 1)]> (candidates st)))
            end
        end
    end.
Proof.
  unfold runTransaction, vote_txn, transaction_set. simpl.
  destruct (voters st !! subjectId); simpl; [reflexivity|].
  destruct (candidates st !! r) as [c|] eqn:Hc; simpl; [|reflexivity].
  destruct (data_refused lib _); simpl; [reflexivity|].
  rewrite Hc. reflexivity.
Qed.

Context (candidate : string) (profile : JsVal).

Lemma castVote_no_document st e :
  document_key lib candidate = Throw e →
  castVote lib now subjectId name candidate profile st = (outcome_of (Throw e), st).
Proof. intros Hk. unfold castVote. rewrite Hk. reflexivity. Qed.

Lemma castVote_voted st v r :
  document_key lib candidate = Ok r →
  voters st !! subjectId = Some v →
  castVote lib now subjectId name candidate profile st = (AlreadyVoted, st).
Proof.
  intros Hk Hv. unfold castVote. rewrite Hk, vote_txn_run, Hv. reflexivity.
Qed.

Lemma castVote_unknown st r :
  document_key lib candidate = Ok r →
  voters st !! subjectId = None → candidates st !! r = None →
  castVote lib now subjectId name candidate profile st = (CandidateNotFound, st).
Proof.
  intros Hk Hv Hc. unfold castVote. rewrite Hk, vote_txn_run, Hv, Hc. reflexivity.
Qed.

Lemma castVote_refused st r c e :
  document_key lib candidate = Ok r →
  voters st !! subjectId = None → candidates st !! r = Some c →
  data_refused lib (mkVoterData name (JStr candidate) (js_or profile JNull)) = Some e →
  castVote lib now subjectId name candidate profile st = (outcome_of (Throw e), st).
Proof.
  intros Hk Hv Hc Hd. unfold castVote.
  rewrite Hk, vote_txn_run, Hv, Hc, Hd. reflexivity.
Qed.

Lemma castVote_fresh st r c :
  document_key lib candidate = Ok r →
  voters st !! subjectId = None → candidates st !! r = Some c →
  data_refused lib (mkVoterData name (JStr candidate) (js_or profile JNull)) = None →
  castVote lib now subjectId name candidate profile st =
    (Success,
     mkStore
       (<[subjectId := mkVoter name (JStr candidate) (js_or profile JNull) (Some now)]>
          (voters st))
       (<[r := mkCandidate (cname c) (votes c + 1)]> (candidates st))).
Proof.
  intros Hk Hv Hc Hd. unfold castVote.
  rewrite Hk, vote_txn_run, Hv, Hc, Hd. reflexivity.
Qed.

(** All the cases of [castVote] at once. *)
Lemma castVote_cases st :
  castVote lib now subjectId name candidate profile st =
    match document_key lib candidate with
    | Throw e => (outcome_of (Throw e), st)
    | Ok r =>
        match voters st !! subjectId with
        | Some _ => (AlreadyVoted, st)
        | None =>
            match candidates st !! r with
            | None => (CandidateNotFound, st)
            | Some c =>
                match data_refused lib
                        (mkVoterData name (JStr candidate) (js_or profile JNull)) with
                | Some e => (outcome_of (Throw e), st)
                | None =>
                    (Success,
                     mkStore
                       (<[subjectId := mkVoter name (JStr candidate)
                                         (js_or profile JNull) (Some now)]>
                          (voters st))
                       (<[r := mkCandidate (cname c) (votes c + 1)]>
                          (candidates st)))
                end
            end
        end
    end.
Proof.
  destruct (document_key lib candidate) as [r|e] eqn:Hk;
    [|apply castVote_no_document; exact Hk].
  destruct (voters st !! subjectId) as [v|] eqn:Hv;
    [eapply castVote_voted; eauto|].
  destruct (candidates st !! r) as [c|] eqn:Hc;
    [|eapply castVote_unknown; eauto].
  destruct (data_refused lib _) as [e|] eqn:Hd.
  - eapply castVote_refused; eauto.
  - eapply castVote_fresh; eauto.
Qed.

(** The only way to succeed. *)
Lemma castVote_success_inv st st' :
  castVote lib now subjectId name candidate profile st = (Success, st') →
  voters st !! subjectId = None ∧
  ∃ r c, document_key lib candidate = Ok r ∧
         candidates st !! r = Some c ∧
         data_refused lib (mkVoterData name (JStr candidate) (js_or profile JNull))
           = None ∧
         st' = mkStore
                 (<[subjectId := mkVoter name (JStr candidate) (js_or profile JNull)
                                   (Some now)]> (voters st))
                 (<[r := mkCandidate (cname c) (votes c + 1)]> (candidates st)).
Proof.
  rewrite castVote_cases.
  destruct (document_key lib candidate) as [r|e].
  2:{ intros [= H _]. exfalso. exact (outcome_of_throw e H). }
  destruct (voters st !! subjectId); [discriminate|].
  destruct (candidates st !! r) as [c|] eqn:Hc; [|discriminate].
  destruct (data_refused lib _) as [e|] eqn:Hd.
  { intros [= H _]. exfalso. exact (outcome_of_throw e H). }
  intros [= <-]. split; [reflexivity|]. exists r, c. repeat split; auto.
Qed.

Lemma castVote_abort st :
  (castVote lib now subjectId name candidate profile st).1 ≠ Success →
  (castVote lib now subjectId name candidate profile st).2 = st.
Proof.
  rewrite castVote_cases.
  destruct (document_key lib candidate) as [r|e]; [|reflexivity].
  destruct (voters st !! subjectId); [reflexivity|].
  destruct (candidates st !! r); [|reflexivity].
  destruct (data_refused lib _); [reflexivity|].
  simpl. congruence.
Qed.

End CastVote.

(** A throwing or failing transaction leaves the store as it was, whatever
    the callback. *)
Lemma runTransaction_throw {A : Type} fault now (callback : Tx A) st e :
  (runTransaction fault now callback st).1 = Throw e →
  (runTransaction fault now callback st).2 = st.
Proof.
  unfold runTransaction. destruct fault; [reflexivity|].
  destruct (run_body st callback []) as [[a ws]|e']; [|reflexivity].
  destruct (apply_writes now ws st); [discriminate|reflexivity].
Qed.

(** [C2], as stated, fails in two places.  The candidate record is not the
    one keyed by [candidateId]: the id [A/] is the key of no candidate, so
    the specified algorithm answers [CandidateNotFound], yet the vote
    succeeds and is counted for [A], because the reference is the document
    the path resolves to.  And the record is not always created once both
    reads pass: for a profile with an empty field name the library refuses
    the data, the transaction aborts and nothing is written. *)
Lemma keyed_by_candidateId_counterexample :
  (candidates seeded !! "A/" = None ∧
   castVote_spec 9 "u2" JUndefined "A/" JUndefined seeded
     = (CandidateNotFound, seeded) ∧
   (castVote sdk 9 "u2" JUndefined "A/" JUndefined seeded).1 = Success ∧
   votes <$> candidates (castVote sdk 9 "u2" JUndefined "A/" JUndefined seeded).2
               !! "A" = Some 1%Z)
  ∧ (voters seeded !! "u2" = None ∧
     candidates seeded !! "A" = Some (mkCandidate "Alice" 0) ∧
     castVote sdk 9 "u2" JUndefined "A" (JObj [("", JNum 1)]) seeded
       = (Failure (mkError "Field name must not be empty"), seeded) ∧
     (castVote_spec 9 "u2" JUndefined "A" (JObj [("", JNum 1)]) seeded).1 = Success).
Proof.
  split.
  - split; [vm_compute; reflexivity|]. split; [vm_compute; reflexivity|].
    split; vm_compute; reflexivity.
  - split; [vm_compute; reflexivity|]. split; [vm_compute; reflexivity|].
    split; vm_compute; reflexivity.
Qed.

(** [C2], amended: [castVote] first builds the candidate reference by
    resolving [candidateId] as a document path, and fails with the
    library's error if that is refused.  It then reads the voter record
    keyed by the subject and aborts with [AlreadyVoted] if it exists; only
    then reads the candidate record at the resolved path and aborts with
    [CandidateNotFound] if it is absent; otherwise, if the library accepts
    the record's data, it creates the voter record (name, candidate id as
    given, profile reference or null, commit timestamp) and adds exactly
    one to the candidate's count, both in the same commit; if the library
    refuses the data the transaction aborts with its error and nothing is
    written.  The operations issued are the voter read, then (only if the
    voter is new) the candidate read, then (only if the candidate exists
    and the data is accepted) the two writes.  A subject that has voted
    and names a path whose document is absent gets [AlreadyVoted].  For a
    plain document id and data the library accepts, this is the algorithm
    of section 4.1. *)
Theorem castVote_algorithm lib now subjectId name candidate profile st :
  castVote lib now subjectId name candidate profile st
    = match document_key lib candidate with
      | Throw e => (outcome_of (Throw e), st)
      | Ok r =>
          match voters st !! subjectId with
          | Some _ => (AlreadyVoted, st)
          | None =>
              match candidates st !! r with
              | None => (CandidateNotFound, st)
              | Some c =>
                  match data_refused lib
                          (mkVoterData name (JStr candidate) (js_or profile JNull))
                  with
                  | Some e => (outcome_of (Throw e), st)
                  | None =>
                      (Success,
                       mkStore
                         (<[subjectId := mkVoter name (JStr candidate)
                                           (js_or profile JNull) (Some now)]>
                            (voters st))
                         (<[r := mkCandidate (cname c) (votes c + 1)]>
                            (candidates st)))
                  end
              end
          end
      end
  ∧ (∀ r, document_key lib candidate = Ok r →
       ops_of st (vote_txn lib subjectId r name (JStr candidate) profile)
       = match voters st !! subjectId with
         | Some _ => [OpGetVoter subjectId]
         | None =>
             match candidates st !! r with
             | None => [OpGetVoter subjectId; OpGetCandidate r]
             | Some _ =>
                 match data_refused lib
                         (mkVoterData name (JStr candidate) (js_or profile JNull))
                 with
                 | Some _ => [OpGetVoter subjectId; OpGetCandidate r]
                 | None =>
                     [OpGetVoter subjectId; OpGetCandidate r;
                      OpWrite (WSet subjectId
                                 (mkVoterData name (JStr candidate)
                                    (js_or profile JNull)));
                      OpWrite (WIncrement r 1)]
                 end
             end
         end)
  ∧ (∀ r, document_key lib candidate = Ok r →
       is_Some (voters st !! subjectId) → candidates st !! r = None →
       castVote lib now subjectId name candidate profile st = (AlreadyVoted, st))
  ∧ (document_key lib candidate = Ok candidate →
     data_refused lib (mkVoterData name (JStr candidate) (js_or profile JNull))
       = None →
     castVote lib now subjectId name candidate profile st
       = castVote_spec now subjectId name candidate profile st).
Proof.
  split; [apply castVote_cases|]. split; [|split].
  - intros r _. unfold vote_txn, transaction_set. simpl.
    destruct (voters st !! subjectId); simpl; [reflexivity|].
    destruct (candidates st !! r); simpl; [|reflexivity].
    destruct (data_refused lib _); reflexivity.
  - intros r Hk [v Hv] _. eapply castVote_voted; eauto.
  - intros Hk Hd. rewrite castVote_cases, Hk, Hd. unfold castVote_spec, js_or.
    reflexivity.
Qed.

Lemma castVote_algorithm_witness :
  is_Some (voters after_u1 !! "u1") ∧ candidates after_u1 !! "Z" = None ∧
  castVote sdk 9 "u1" (JStr "Uma") "Z" JUndefined after_u1 = (AlreadyVoted, after_u1).
Proof.
  assert (Hv : is_Some (voters after_u1 !! "u1")) by (eexists; vm_compute; reflexivity).
  assert (Hc : candidates after_u1 !! "Z" = None) by (vm_compute; reflexivity).
  split; [exact Hv|]. split; [exact Hc|].
  exact (proj1 (proj2 (proj2 (castVote_algorithm sdk 9 "u1" (JStr "Uma") "Z" JUndefined
                                after_u1))) "Z" eq_refl Hv Hc).
Defined.

(** [C4], as stated, fails.  [u1] has voted and [Z] is not a candidate, yet
    the answer is [AlreadyVoted], not [CandidateNotFound]; and [A/] is the
    id of no candidate in the store, yet a vote for it succeeds and changes
    the store, because the path resolves to the candidate [A]. *)
Lemma absent_candidate_counterexample :
  (candidates after_u1 !! "Z" = None ∧
   castVote sdk 9 "u1" (JStr "Uma") "Z" JUndefined after_u1 = (AlreadyVoted, after_u1) ∧
   (castVote sdk 9 "u1" (JStr "Uma") "Z" JUndefined after_u1).1 ≠ CandidateNotFound)
  ∧ (candidates seeded !! "A/" = None ∧
     (castVote sdk 9 "u2" JUndefined "A/" JUndefined seeded).1 = Success ∧
     (castVote sdk 9 "u2" JUndefined "A/" JUndefined seeded).2 ≠ seeded).
Proof.
  split.
  - split; [vm_compute; reflexivity|].
    assert (H : castVote sdk 9 "u1" (JStr "Uma") "Z" JUndefined after_u1
                = (AlreadyVoted, after_u1)).
    { eapply castVote_voted; [reflexivity|]. vm_compute. reflexivity. }
    split; [exact H|]. rewrite H. discriminate.
  - split; [vm_compute; reflexivity|]. split; [vm_compute; reflexivity|].
    intros H. apply (f_equal (fun st => voters st !! "u2")) in H.
    vm_compute in H. discriminate.
Qed.

(** [C4], amended: when the path [candidateId] resolves to a document that
    is not in the store, [castVote] leaves the store unchanged and answers
    [CandidateNotFound] when the subject has no voter record,
    [AlreadyVoted] when it has one.  Every abort of the transaction,
    whatever its reason (a subject that has voted, an absent candidate, a
    refused path, refused data), leaves the store exactly as it was: no
    voter record is created and no count moves. *)
Theorem castVote_abort_no_effect lib now subjectId name candidate profile st :
  (∀ r, document_key lib candidate = Ok r → candidates st !! r = None →
     (castVote lib now subjectId name candidate profile st).2 = st ∧
     (voters st !! subjectId = None →
        (castVote lib now subjectId name candidate profile st).1
          = CandidateNotFound) ∧
     (is_Some (voters st !! subjectId) →
        (castVote lib now subjectId name candidate profile st).1 = AlreadyVoted))
  ∧ ((castVote lib now subjectId name candidate profile st).1 ≠ Success →
     (castVote lib now subjectId name candidate profile st).2 = st)
  ∧ (∀ fault r e,
       (runTransaction fault now
          (vote_txn lib subjectId r name (JStr candidate) profile) st).1
         = Throw e →
       (runTransaction fault now
          (vote_txn lib subjectId r name (JStr candidate) profile) st).2 = st).
Proof.
  split; [|split].
  - intros r Hk Hc. destruct (voters st !! subjectId) as [v|] eqn:Hv.
    + erewrite castVote_voted by eauto. simpl.
      split; [reflexivity|]. split; [discriminate|reflexivity].
    + erewrite castVote_unknown by eauto. simpl.
      split; [reflexivity|]. split; [reflexivity|]. intros [? ?]; discriminate.
  - apply castVote_abort.
  - intros fault r e. apply runTransaction_throw.
Qed.

Lemma castVote_abort_no_effect_witness :
  candidates seeded !! "Z" = None ∧
  (castVote sdk 9 "u2" JUndefined "Z" JUndefined seeded).2 = seeded ∧
  (castVote sdk 9 "u2" JUndefined "Z" JUndefined seeded).1 = CandidateNotFound.
Proof.
  assert (Hc : candidates seeded !! "Z" = None) by (vm_compute; reflexivity).
  assert (Hv : voters seeded !! "u2" = None) by (vm_compute; reflexivity).
  pose proof (proj1 (castVote_abort_no_effect sdk 9 "u2" JUndefined "Z" JUndefined
                       seeded) "Z" eq_refl Hc) as [Hst [Hnf _]].
  split; [exact Hc|]. split; [exact Hst|exact (Hnf Hv)].
Defined.

(* ===================================================================== *)
(** ** The middleware and the handlers *)
(* ===================================================================== *)

Section Handlers.

Context (env : Env).

(** [verifyUser] touches neither the store nor the claims; at most it
    calls the identity verifier once. *)
Lemma verifyUser_frame req w r w1 :
  verifyUser env req w = (r, w1) →
  db w1 = db w ∧ claims w1 = claims w ∧
  (calls w1 = calls w ∨ ∃ t, calls w1 = calls w ++ [CVerifyIdToken t]).
Proof.
  unfold verifyUser. destruct (authorization req) as [h|].
  - destruct (String.eqb h "" || negb (startsWith h "Bearer ")).
    + intros [= <- <-]. auto.
    + destruct (split h "Bearer " !! 1%nat) as [t|].
      * destruct (verifyIdToken env t); intros [= <- <-]; simpl; eauto.
      * intros [= <- <-]; simpl; eauto.
  - intros [= <- <-]. auto.
Qed.

(** A request that gets past [verifyUser] called the verifier exactly once. *)
Lemma verifyUser_next req w user w1 :
  verifyUser env req w = (inr user, w1) →
  db w1 = db w ∧ claims w1 = claims w ∧
  ∃ t, calls w1 = calls w ++ [CVerifyIdToken t].
Proof.
  unfold verifyUser. destruct (authorization req) as [h|]; [|discriminate].
  destruct (String.eqb h "" || negb (startsWith h "Bearer ")); [discriminate|].
  destruct (split h "Bearer " !! 1%nat) as [t|]; [|discriminate].
  destruct (verifyIdToken env t); [|discriminate].
  intros [= <- <-]. simpl. eauto.
Qed.

Lemma verifyUser_no_bearer req w :
  (authorization req = None ∨
   ∃ h, authorization req = Some h ∧ startsWith h "Bearer " = false) →
  verifyUser env req w = (inl (json 401 (PMessage "Unauthorized")), w).
Proof.
  unfold verifyUser. intros [-> | (h & -> & Hh)]; [reflexivity|].
  rewrite Hh. simpl. rewrite orb_true_r. reflexivity.
Qed.



(** The [try] block either throws and leaves the store alone, or commits
    one successful [castVote] of the authenticated subject. *)
Lemma vote_try_cases userId name cid prof w r w' :
  vote_try env userId name cid prof w = (r, w') →
  claims w' = claims w ∧
  ((∃ e, r = Throw e ∧ db w' = db w) ∨
   (r = Ok tt ∧ ∃ s ref, cid = JStr s ∧ document_key (lib env) s = Ok ref ∧
      calls w' = calls w ++ [CRunTransaction userId ref] ∧
      castVote (lib env) (now env) userId name s prof (db w) = (Success, db w'))).
Proof.
  unfold vote_try, voter_doc, doc.
  destruct (doc_refused env userId) as [e|].
  { intros [= <- <-]. split; [reflexivity|]. left. eauto. }
  destruct cid as [| | | |s| |];
    try (intros [= <- <-]; split; [reflexivity|]; left; eauto).
  destruct (document_key (lib env) s) as [ref|e] eqn:Hk.
  2:{ intros [= <- <-]. split; [reflexivity|]. left. eauto. }
  destruct (runTransaction (store_fault env) (now env)
              (vote_txn (lib env) userId ref name (JStr s) prof) (db w))
    as [r0 st'] eqn:Hrun.
  intros [= <- <-]. simpl. split; [reflexivity|].
  destruct r0 as [[]|e].
  - right. split; [reflexivity|]. exists s, ref. split; [reflexivity|].
    split; [exact Hk|]. split; [reflexivity|].
    unfold castVote. rewrite Hk. destruct (store_fault env) as [e|].
    + simpl in Hrun. discriminate.
    + rewrite Hrun. reflexivity.
  - left. exists e. split; [reflexivity|].
    pose proof (runTransaction_throw (store_fault env) (now env)
                  (vote_txn (lib env) userId ref name (JStr s) prof) (db w) e) as H.
    rewrite Hrun in H. simpl in H. auto.
Qed.

(** The vote handler answers 200 exactly when the [try] block returns. *)
Lemma vote_cases user req w :
  (status (vote env user req w).1 = 400 ∧ db (vote env user req w).2 = db w ∧
   claims (vote env user req w).2 = claims w)
  ∨ (vote env user req w).1 = json 200 (PMessage "Vote successful!") ∧
    claims (vote env user req w).2 = claims w ∧
    ∃ s, body_candidateId req = JStr s ∧
         castVote (lib env) (now env) (uid user)
           (js_or (displayName user) (JStr "Anonymous")) s
           (body_linkedInProfile req) (db w)
         = (Success, db (vote env user req w).2).
Proof.
  unfold vote. destruct (truthy (body_candidateId req)); simpl.
  - destruct (vote_try env (uid user) (js_or (displayName user) (JStr "Anonymous"))
                (body_candidateId req) (body_linkedInProfile req) w)
      as [r w'] eqn:Htry.
    apply vote_try_cases in Htry
      as [Hcl [(e & -> & Hdb) | (-> & s & ref & Hs & _ & _ & Hcv)]].
    + left. simpl. auto.
    + right. simpl. split; [reflexivity|]. split; [exact Hcl|]. eauto.
  - left. auto.
Qed.

End Handlers.

(** [C6]: a [POST /api/vote] with no [Authorization] header, or with one
    that does not start with [Bearer ], is answered 401 [Unauthorized] and
    the world is left exactly as it was: no voter record, no candidate
    count and not even a call to a collaborator. *)
Theorem vote_without_bearer env w req :
  route req = ApiVote →
  (authorization req = None ∨
   ∃ h, authorization req = Some h ∧ startsWith h "Bearer " = false) →
  handle env w req = (json 401 (PMessage "Unauthorized"), w)
  ∧ status (handle env w req).1 = 401
  ∧ voters (db (handle env w req).2) = voters (db w)
  ∧ candidates (db (handle env w req).2) = candidates (db w).
Proof.
  intros Hr Hh.
  assert (H : handle env w req = (json 401 (PMessage "Unauthorized"), w)).
  { unfold handle. rewrite Hr, (verifyUser_no_bearer env req w Hh). reflexivity. }
  rewrite H. auto.
Qed.

Lemma vote_without_bearer_witness :
  handle healthy world0 (anonymous_vote_request (JStr "A"))
    = (json 401 (PMessage "Unauthorized"), world0)
  ∧ handle healthy world0
      (mkRequest ApiVote (Some "Basic dTE6cHc=") JUndefined (JStr "A") JUndefined
         JUndefined)
    = (json 401 (PMessage "Unauthorized"), world0).
Proof.
  split.
  - refine (proj1 (vote_without_bearer healthy world0
                     (anonymous_vote_request (JStr "A")) _ _)).
    + reflexivity.
    + left. reflexivity.
  - refine (proj1 (vote_without_bearer healthy world0
                     (mkRequest ApiVote (Some "Basic dTE6cHc=") JUndefined (JStr "A")
                        JUndefined JUndefined) _ _)).
    + reflexivity.
    + right. exists "Basic dTE6cHc=". split; reflexivity.
Defined.

(** [C7]: [POST /make-admin] by an authenticated subject whose token has no
    truthy [admin] claim is answered 403; the claims of every user and the
    store stay as they were, and the only collaborator called is the token
    verifier, so [setCustomUserClaims] is never reached. *)
Theorem make_admin_requires_admin env w req user w1 :
  route req = MakeAdmin →
  verifyUser env req w = (inr user, w1) →
  truthy (admin user) = false →
  handle env w req = (json 403 (PMessage "Access denied (Admin only)"), w1)
  ∧ claims (handle env w req).2 = claims w
  ∧ db (handle env w req).2 = db w
  ∧ (∃ t, calls (handle env w req).2 = calls w ++ [CVerifyIdToken t])
  ∧ (∀ u, CSetCustomUserClaims u ∈ calls (handle env w req).2 →
          CSetCustomUserClaims u ∈ calls w).
Proof.
  intros Hr Hv Ha.
  assert (H : handle env w req
              = (json 403 (PMessage "Access denied (Admin only)"), w1)).
  { unfold handle. rewrite Hr, Hv. unfold requireAdmin. rewrite Ha. reflexivity. }
  rewrite H. simpl.
  destruct (verifyUser_next env req w user w1 Hv) as (Hdb & Hcl & t & Hcalls).
  repeat split; auto.
  - eauto.
  - intros u. rewrite Hcalls, elem_of_app, list_elem_of_singleton.
    intros [Hin | Heq]; [exact Hin | discriminate].
Qed.

Lemma make_admin_requires_admin_witness :
  handle healthy world0 (make_admin_request "token-u1" (JStr "u1"))
    = (json 403 (PMessage "Access denied (Admin only)"),
       mkWorld seeded ∅ [CVerifyIdToken (Some "token-u1")])
  ∧ claims (handle healthy world0 (make_admin_request "token-u1" (JStr "u1"))).2 = ∅.
Proof.
  pose proof (make_admin_requires_admin healthy world0
                (make_admin_request "token-u1" (JStr "u1"))
                (mkToken "u1" (JStr "Uma") JUndefined)
                (mkWorld seeded ∅ [CVerifyIdToken (Some "token-u1")])
                eq_refl eq_refl eq_refl) as (H1 & H2 & _).
  split; [exact H1 | exact H2].
Defined.

(** [C10]: an authenticated [POST /api/vote] whose [candidateId] is the
    empty string is answered 400 [Candidate ID required], exactly as when
    the field is missing; this happens before any document reference is
    built, so the store is unchanged and no transaction is run. *)
Theorem empty_candidate_id env w req user w1 :
  route req = ApiVote →
  verifyUser env req w = (inr user, w1) →
  (body_candidateId req = JStr "" ∨ body_candidateId req = JUndefined) →
  handle env w req = (json 400 (PMessage "Candidate ID required"), w1)
  ∧ db (handle env w req).2 = db w
  ∧ (∃ t, calls (handle env w req).2 = calls w ++ [CVerifyIdToken t])
  ∧ (∀ v c, CRunTransaction v c ∈ calls (handle env w req).2 →
            CRunTransaction v c ∈ calls w).
Proof.
  intros Hr Hv Hc.
  assert (Hf : truthy (body_candidateId req) = false)
    by (destruct Hc as [-> | ->]; reflexivity).
  assert (H : handle env w req = (json 400 (PMessage "Candidate ID required"), w1)).
  { unfold handle. rewrite Hr, Hv. unfold vote. rewrite Hf. reflexivity. }
  rewrite H. simpl.
  destruct (verifyUser_next env req w user w1 Hv) as (Hdb & Hcl & t & Hcalls).
  repeat split; auto.
  - eauto.
  - intros v c. rewrite Hcalls, elem_of_app, list_elem_of_singleton.
    intros [Hin | Heq]; [exact Hin | discriminate].
Qed.

Lemma empty_candidate_id_witness :
  handle healthy world0 (vote_request "token-u1" (JStr ""))
    = (json 400 (PMessage "Candidate ID required"),
       mkWorld seeded ∅ [CVerifyIdToken (Some "token-u1")])
  ∧ db (handle healthy world0 (vote_request "token-u1" (JStr ""))).2 = seeded.
Proof.
  pose proof (empty_candidate_id healthy world0
                (vote_request "token-u1" (JStr ""))
                (mkToken "u1" (JStr "Uma") JUndefined)
                (mkWorld seeded ∅ [CVerifyIdToken (Some "token-u1")])
                eq_refl eq_refl (or_introl eq_refl)) as (H1 & H2 & _).
  split; [exact H1 | exact H2].
Defined.

Lemma verifyUser_answers env req w res w1 :
  verifyUser env req w = (inl res, w1) → status res = 401.
Proof.
  unfold verifyUser. destruct (authorization req) as [h|].
  - destruct (String.eqb h "" || negb (startsWith h "Bearer ")).
    + intros [= <- <-]. reflexivity.
    + destruct (split h "Bearer " !! 1%nat) as [t|].
      * destruct (verifyIdToken env t); intros [= <- <-]. reflexivity.
      * intros [= <- <-]. reflexivity.
  - intros [= <- <-]. reflexivity.
Qed.

(** A vote answered 200 went through [verifyUser] and committed one
    successful [castVote] for the token's uid. *)
Lemma vote_ok_inv env w req :
  route req = ApiVote → status (handle env w req).1 = 200 →
  ∃ user w1 s,
    verifyUser env req w = (inr user, w1) ∧
    body_candidateId req = JStr s ∧
    castVote (lib env) (now env) (uid user)
      (js_or (displayName user) (JStr "Anonymous")) s
      (body_linkedInProfile req) (db w)
    = (Success, db (handle env w req).2).
Proof.
  intros Hr. unfold handle. rewrite Hr.
  destruct (verifyUser env req w) as [[res|user] w1] eqn:Hv; simpl.
  - apply verifyUser_answers in Hv. rewrite Hv. discriminate.
  - intros H200.
    destruct (verifyUser_next env req w user w1 Hv) as (Hdb & _).
    destruct (vote_cases env user req w1) as [(H400 & _) | (_ & _ & s & Hs & Hcv)].
    + rewrite H400 in H200. discriminate.
    + exists user, w1, s. rewrite <- Hdb. auto.
Qed.

(** [C9]: after a vote answered 200 the voter record stored under the
    token's uid has as [name] the token's [displayName], or the string
    [Anonymous] when the token carries none ([displayName || "Anonymous"]),
    and as [linkedInProfile] null when the body has no [linkedInProfile]
    ([linkedInProfile || null]). *)
Theorem stored_voter_defaults env w req :
  route req = ApiVote →
  status (handle env w req).1 = 200 →
  ∃ user w1 rec,
    verifyUser env req w = (inr user, w1) ∧
    voters (db (handle env w req).2) !! uid user = Some rec ∧
    name rec = js_or (displayName user) (JStr "Anonymous") ∧
    (displayName user = JUndefined → name rec = JStr "Anonymous") ∧
    (truthy (displayName user) = true → name rec = displayName user) ∧
    linkedInProfile rec = js_or (body_linkedInProfile req) JNull ∧
    (body_linkedInProfile req = JUndefined → linkedInProfile rec = JNull) ∧
    candidateId rec = body_candidateId req ∧
    votedAt rec = Some (now env).
Proof.
  intros Hr H200.
  destruct (vote_ok_inv env w req Hr H200) as (user & w1 & s & Hv & Hs & Hcv).
  apply castVote_success_inv in Hcv as (_ & ref & c & _ & _ & _ & Hst).
  exists user, w1,
    (mkVoter (js_or (displayName user) (JStr "Anonymous")) (JStr s)
       (js_or (body_linkedInProfile req) JNull) (Some (now env))).
  split; [exact Hv|]. split.
  { rewrite Hst. simpl. apply lookup_insert_eq. }
  simpl. repeat split; auto.
  - intros ->. reflexivity.
  - intros Ht. unfold js_or. rewrite Ht. reflexivity.
  - intros ->. reflexivity.
Qed.

Lemma stored_voter_defaults_witness :
  ∃ rec,
    voters (db (handle healthy world0 (vote_request "token-u2" (JStr "A"))).2) !! "u2"
      = Some rec ∧
    name rec = JStr "Anonymous" ∧ linkedInProfile rec = JNull.
Proof.
  destruct (stored_voter_defaults healthy world0 (vote_request "token-u2" (JStr "A"))
              eq_refl eq_refl)
    as (user & w1 & rec & Hv & Hrec & _ & Hname & _ & _ & Hprof & _).
  injection Hv as <- <-.
  exists rec. split; [exact Hrec|]. split; [exact (Hname eq_refl)|exact (Hprof eq_refl)].
Defined.




(* ===================================================================== *)
(** ** What one request does to the store *)
(* ===================================================================== *)

(** Every request either leaves the store alone or commits one successful
    [castVote] of the subject the token names; the latter exactly when it
    is a vote answered 200. *)
Lemma handle_store env w req :
  match committed_vote env w req with
  | Some s =>
      ∃ n c p,
        castVote (lib env) (now env) s n c p (db w)
        = (Success, db (handle env w req).2)
  | None => db (handle env w req).2 = db w
  end.
Proof.
  unfold committed_vote, handle.
  destruct (route req) eqn:Hr; simpl; try reflexivity.
  - unfold auth_linkedin_callback.
    destruct (truthy (query_code req)); simpl; [|reflexivity].
    destruct (linkedin_exchange env (query_code req)); reflexivity.
  - destruct (verifyUser env req w) as [[res|user] w1] eqn:Hv.
    + apply verifyUser_frame in Hv as (Hdb & _). exact Hdb.
    + apply verifyUser_next in Hv as (Hdb & _).
      destruct (vote_cases env user req w1) as [(H400 & Hst & _) | (H200 & _ & s & _ & Hcv)].
      * rewrite H400. simpl. congruence.
      * rewrite H200. simpl. rewrite <- Hdb. eauto.
  - unfold list_candidates. destruct (store_fault env); reflexivity.
  - destruct (verifyUser env req w) as [[res|user] w1] eqn:Hv.
    + apply verifyUser_frame in Hv as (Hdb & _). exact Hdb.
    + apply verifyUser_next in Hv as (Hdb & _).
      unfold list_voters. destruct (store_fault env); exact Hdb.
  - destruct (verifyUser env req w) as [[res|user] w1] eqn:Hv.
    + apply verifyUser_frame in Hv as (Hdb & _). exact Hdb.
    + apply verifyUser_next in Hv as (Hdb & _).
      destruct (requireAdmin user); [exact Hdb|].
      unfold make_admin. destruct (truthy (body_uid req)); [|exact Hdb].
      unfold setCustomUserClaims.
      destruct (body_uid req) as [| | | |s| |]; simpl; try exact Hdb.
      destruct (claims_refused env s); exact Hdb.
Qed.

Lemma grows_refl st : grows st st.
Proof.
  intros id. destruct (candidates st !! id); [|exact I]. split; [reflexivity|lia].
Qed.

Lemma grows_trans st1 st2 st3 : grows st1 st2 → grows st2 st3 → grows st1 st3.
Proof.
  intros H12 H23 id. specialize (H12 id). specialize (H23 id).
  destruct (candidates st1 !! id), (candidates st2 !! id), (candidates st3 !! id);
    try contradiction; try exact I.
  destruct H12, H23. split; [congruence|lia].
Qed.

Lemma castVote_grows lib now s n c p st st' :
  castVote lib now s n c p st = (Success, st') → grows st st'.
Proof.
  intros H. apply castVote_success_inv in H as (_ & r & c0 & _ & Hc & _ & ->).
  intros id. simpl. destruct (decide (r = id)) as [<-|Hne].
  - rewrite lookup_insert_eq, Hc. simpl. split; [reflexivity|lia].
  - rewrite lookup_insert_ne by exact Hne.
    destruct (candidates st !! id); [|exact I]. split; [reflexivity|lia].
Qed.

Lemma handle_grows env w req : grows (db w) (db (handle env w req).2).
Proof.
  pose proof (handle_store env w req) as H.
  destruct (committed_vote env w req).
  - destruct H as (n & c & p & H). eapply castVote_grows; eauto.
  - rewrite H. apply grows_refl.
Qed.

Lemma reachable_grows w0 w : reachable w0 w → grows (db w0) (db w).
Proof.
  induction 1 as [w|w1 w2 w3 (env & req & <-) _ IH].
  - apply grows_refl.
  - eapply grows_trans; [apply handle_grows|exact IH].
Qed.

(** [C8]: across every request the system serves, the set of candidates
    stays the seeded one and no count decreases (a request adds at most
    one to one count); so, when the seeded counts are non-negative, every
    count stays a non-negative integer and [GET /api/candidates] returns
    seeded candidates only, each with a non-negative count. *)
Theorem candidates_monotone w0 w :
  (∀ id c, candidates (db w0) !! id = Some c → (0 ≤ votes c)%Z) →
  reachable w0 w →
  dom (candidates (db w)) = dom (candidates (db w0))
  ∧ (∀ id c0, candidates (db w0) !! id = Some c0 →
       ∃ c, candidates (db w) !! id = Some c ∧ cname c = cname c0 ∧
            (0 ≤ votes c0 ≤ votes c)%Z)
  ∧ (∀ id c, candidates (db w) !! id = Some c → (0 ≤ votes c)%Z)
  ∧ (∀ env req id c, candidates (db w) !! id = Some c →
       ∃ c', candidates (db (handle env w req).2) !! id = Some c' ∧
             (votes c ≤ votes c' ≤ votes c + 1)%Z)
  ∧ (∀ env req,
       dom (candidates (db (handle env w req).2)) = dom (candidates (db w)))
  ∧ (∀ env req l, route req = ApiCandidates →
       payload (handle env w req).1 = PCandidates l →
       ∀ id c, (id, c) ∈ l →
         is_Some (candidates (db w0) !! id) ∧ candidates (db w) !! id = Some c ∧
         (0 ≤ votes c)%Z).
Proof.
  intros Hseed Hreach.
  pose proof (reachable_grows w0 w Hreach) as Hg.
  assert (Hdom : ∀ st st', grows st st' → dom (candidates st') = dom (candidates st)).
  { intros st st' G. apply set_eq. intros id. rewrite !elem_of_dom.
    specialize (G id).
    destruct (candidates st !! id), (candidates st' !! id); try contradiction;
      split; intros [? ?]; try discriminate; eauto. }
  assert (Hnonneg : ∀ id c, candidates (db w) !! id = Some c →
                            is_Some (candidates (db w0) !! id) ∧ (0 ≤ votes c)%Z).
  { intros id c Hc. specialize (Hg id). rewrite Hc in Hg.
    destruct (candidates (db w0) !! id) as [c0|] eqn:H0; [|contradiction].
    destruct Hg as [_ Hle]. specialize (Hseed id c0 H0). split; [eauto|lia]. }
  split; [apply Hdom; exact Hg|]. split; [|split; [|split; [|split]]].
  - intros id c0 H0. specialize (Hg id). rewrite H0 in Hg.
    destruct (candidates (db w) !! id) as [c|]; [|contradiction].
    destruct Hg as [Hn Hle]. exists c. specialize (Hseed id c0 H0).
    split; [reflexivity|]. split; [exact Hn|lia].
  - intros id c Hc. apply (Hnonneg id c Hc).
  - intros env req id c Hc.
    pose proof (handle_store env w req) as H.
    destruct (committed_vote env w req).
    + destruct H as (n & cand & p & H).
      apply castVote_success_inv in H as (_ & r & c1 & _ & Hc1 & _ & ->). simpl.
      destruct (decide (r = id)) as [<-|Hne].
      * rewrite lookup_insert_eq. eexists. split; [reflexivity|]. simpl.
        assert (c1 = c) by congruence. subst. lia.
      * rewrite lookup_insert_ne by exact Hne. exists c. split; [exact Hc|lia].
    + rewrite H. exists c. split; [exact Hc|lia].
  - intros env req. apply Hdom, handle_grows.
  - intros env req l Hr. unfold handle. rewrite Hr. unfold list_candidates.
    destruct (store_fault env); simpl; [discriminate|].
    intros [= <-] id c Hin. apply elem_of_map_to_list in Hin.
    destruct (Hnonneg id c Hin). auto.
Qed.

Lemma candidates_monotone_witness :
  dom (candidates (db (handle healthy world0 (vote_request "token-u1" (JStr "A"))).2))
    = dom (candidates seeded)
  ∧ ∃ c, candidates (db (handle healthy world0 (vote_request "token-u1" (JStr "A"))).2)
           !! "A" = Some c ∧ (0 ≤ 0 ≤ votes c)%Z.
Proof.
  assert (Hseed : ∀ id c, candidates (db world0) !! id = Some c → (0 ≤ votes c)%Z).
  { intros id c H. simpl in H.
    apply lookup_insert_Some in H as [[_ <-] | [_ H]]; [simpl; lia|].
    apply lookup_insert_Some in H as [[_ <-] | [_ H]]; [simpl; lia|].
    rewrite lookup_empty in H. discriminate. }
  assert (Hreach : reachable world0
                     (handle healthy world0 (vote_request "token-u1" (JStr "A"))).2).
  { eapply rtc_l; [|apply rtc_refl].
    exists healthy, (vote_request "token-u1" (JStr "A")). reflexivity. }
  destruct (candidates_monotone world0 _ Hseed Hreach) as (Hdom & Hmono & _).
  split; [exact Hdom|].
  destruct (Hmono "A" (mkCandidate "Alice" 0) eq_refl) as (c & Hc & _ & Hle).
  exists c. split; [exact Hc | exact Hle].
Defined.


(* ===================================================================== *)
(** ** Clients racing inside the executor *)
(* ===================================================================== *)


Section Pool.

Context (max_attempts : nat).







End Pool.

Section PoolInvariant.

Context (max_attempts : nat) (st0 : Store).





End PoolInvariant.


(* ===================================================================== *)
(** ** One voter record per subject *)
(* ===================================================================== *)

Lemma run_cons w env req rest :
  (run w ((env, req) :: rest)).2 = (run (handle env w req).2 rest).2.
Proof.
  simpl. destruct (handle env w req) as [res w']. simpl.
  destruct (run w' rest). reflexivity.
Qed.







(* ===================================================================== *)
(** ** Voting twice *)
(* ===================================================================== *)



(** A race the executor can run: both clients read that [u1] has not
    voted; the first to commit wins; the other cannot commit what it read,
    is rerun, sees the record and is rejected.  One vote is counted. *)
Example race_has_one_winner :
  ∃ st' cs,
    rtc (pool_step 5) (seeded, start <$> race) (st', cs) ∧
    result <$> cs = [Some (Ok tt); Some (Throw (mkError already_voted))] ∧
    votes <$> candidates st' !! "A" = Some 1%Z ∧
    votes <$> candidates st' !! "B" = Some 0%Z ∧
    candidateId <$> voters st' !! "u1" = Some (JStr "A").
Proof.
  eexists _, _. split.
  - pool_move 0 ltac:(eapply step_get_voter; reflexivity).
    pool_move 1 ltac:(eapply step_get_voter; reflexivity).
    pool_move 0 ltac:(eapply step_get_candidate; reflexivity).
    pool_move 1 ltac:(eapply step_get_candidate; reflexivity).
    pool_move 0 ltac:(eapply step_write; reflexivity).
    pool_move 1 ltac:(eapply step_write; reflexivity).
    pool_move 0 ltac:(eapply step_write; reflexivity).
    pool_move 1 ltac:(eapply step_write; reflexivity).
    pool_move 0 ltac:(eapply (step_commit _ _ _ 7);
                      [reflexivity | reflexivity | reads_hold | reflexivity]).
    pool_move 1 ltac:(eapply step_retry; [reflexivity | cbn; lia]).
    pool_move 1 ltac:(eapply step_get_voter; reflexivity).
    pool_move 1 ltac:(eapply step_throw; reflexivity).
    apply rtc_refl.
  - vm_compute. repeat split; reflexivity.
Qed.

(** The scenario of the specification: [u1] votes for [A], [u1] votes for
    [B], [u2] votes for [A]. *)
Example scenario :
  let '(ress, w) :=
    run world0
      [(healthy, vote_request "token-u1" (JStr "A"));
       (healthy, vote_request "token-u1" (JStr "B"));
       (healthy, vote_request "token-u2" (JStr "A"))] in
  ress = [json 200 (PMessage "Vote successful!");
          json 400 (PMessage "You have already voted");
          json 200 (PMessage "Vote successful!")]
  ∧ votes <$> candidates (db w) !! "A" = Some 2%Z
  ∧ votes <$> candidates (db w) !! "B" = Some 0%Z
  ∧ has_voted world0
      [(healthy, vote_request "token-u1" (JStr "A"));
       (healthy, vote_request "token-u1" (JStr "B"));
       (healthy, vote_request "token-u2" (JStr "A"))] = ["u1"; "u2"].
Proof. vm_compute. repeat split; reflexivity. Qed.

(* ===================================================================== *)
(** ** The bearer token *)
(* ===================================================================== *)

Lemma append_empty_r (s : string) : s +:+ "" = s.
Proof.
  induction s as [|c s IH]; [reflexivity|].
  change (String c (s +:+ "") = String c s). rewrite IH. reflexivity.
Qed.

Lemma append_assoc (a b c : string) : (a +:+ b) +:+ c = a +:+ (b +:+ c).
Proof.
  induction a as [|x a IH]; [reflexivity|].
  change (String x ((a +:+ b) +:+ c) = String x (a +:+ (b +:+ c))).
  rewrite IH. reflexivity.
Qed.

Lemma prefix_append (p t : string) : String.prefix p (p +:+ t) = true.
Proof.
  induction p as [|c p IH]; [destruct t; reflexivity|].
  change (String c p +:+ t) with (String c (p +:+ t)). cbn [String.prefix].
  destruct (Ascii.ascii_dec c c) as [_|Hne]; [exact IH|contradiction].
Qed.

(** A string without the separator is one piece. *)
Lemma split_from_clean sep t : ∀ cur,
  occurs sep t = false → split_from sep 0 cur t = [cur +:+ t].
Proof.
  induction t as [|c t IH]; intros cur Hocc.
  - simpl. rewrite append_empty_r. reflexivity.
  - cbn [occurs] in Hocc. apply orb_false_iff in Hocc as [Hp Ho].
    cbn [split_from]. rewrite Hp, (IH _ Ho), append_assoc. reflexivity.
Qed.

(** Skipping the rest of a separator that was matched. *)
Lemma split_from_skip sep u : ∀ cur t,
  split_from sep (String.length u) cur (u +:+ t) = split_from sep 0 cur t.
Proof.
  induction u as [|c u IH]; intros cur t; [reflexivity|].
  change (String c u +:+ t) with (String c (u +:+ t)).
  cbn [String.length split_from]. apply IH.
Qed.

Lemma split_prefixed sep t :
  sep ≠ "" → occurs sep t = false → split (sep +:+ t) sep = [""; t].
Proof.
  intros Hne Hocc. destruct sep as [|a sep]; [contradiction|].
  unfold split.
  change (String a sep +:+ t) with (String a (sep +:+ t)).
  cbn [split_from].
  change (String a (sep +:+ t)) with (String a sep +:+ t).
  rewrite prefix_append.
  replace (String.length (String a sep) - 1) with (String.length sep)
    by (simpl; lia).
  rewrite split_from_skip, (split_from_clean _ _ _ Hocc). reflexivity.
Qed.

Lemma bearer_not_empty h : startsWith h "Bearer " = true → String.eqb h "" = false.
Proof. destruct h; [discriminate|reflexivity]. Qed.

(** [X1]: when the [Authorization] header is [Bearer ] followed by a token
    in which [Bearer ] does not occur again, [verifyUser] hands exactly
    that token to the identity verifier, once; the request goes on with
    the decoded token if the verifier accepts it and is answered 401
    [Invalid or expired token] if it throws. *)
Theorem bearer_token_verbatim env req w t :
  authorization req = Some ("Bearer " +:+ t) →
  occurs "Bearer " t = false →
  verifyUser env req w =
    (match verifyIdToken env t with
     | Ok decodedToken => inr decodedToken
     | Throw _ => inl (json 401 (PMessage "Invalid or expired token"))
     end,
     log (CVerifyIdToken (Some t)) w).
Proof.
  intros Hh Hocc. unfold verifyUser. rewrite Hh.
  assert (Hp : startsWith ("Bearer " +:+ t) "Bearer " = true)
    by apply prefix_append.
  rewrite (bearer_not_empty _ Hp), Hp. cbn [negb orb].
  rewrite (split_prefixed "Bearer " t) by (discriminate || exact Hocc).
  cbn [lookup list_lookup]. destruct (verifyIdToken env t); reflexivity.
Qed.

Lemma bearer_token_verbatim_witness :
  verifyUser healthy (vote_request "token-u2" (JStr "A")) world0
  = (inr (mkToken "u2" JUndefined JUndefined),
     log (CVerifyIdToken (Some "token-u2")) world0).
Proof.
  exact (bearer_token_verbatim healthy (vote_request "token-u2" (JStr "A")) world0
           "token-u2" eq_refl eq_refl).
Defined.

(** What a request that got past [verifyUser] carried. *)
Lemma verifyUser_next_inv env req w user w1 :
  verifyUser env req w = (inr user, w1) →
  ∃ h t, authorization req = Some h ∧ startsWith h "Bearer " = true ∧
         split h "Bearer " !! 1%nat = Some t ∧ verifyIdToken env t = Ok user.
Proof.
  unfold verifyUser. destruct (authorization req) as [h|]; [|discriminate].
  destruct (String.eqb h ""); [discriminate|]. cbn [orb].
  destruct (startsWith h "Bearer ") eqn:Hp; [|discriminate]. cbn [negb].
  destruct (split h "Bearer " !! 1%nat) as [t|] eqn:Ht; [|discriminate].
  destruct (verifyIdToken env t) as [u|] eqn:Hv; [|discriminate].
  intros [= <- _]. exists h, t. repeat split; auto.
Qed.

(** [X2]: on the three routes behind [verifyUser] (the vote, the voters
    list and make-admin) any answer other than 401 means the request
    carried a [Bearer ] header whose token the identity verifier accepted;
    and a token the verifier rejects is answered 401 [Invalid or expired
    token] with the store and the claims untouched. *)
Theorem guarded_routes_need_token env w req :
  guarded (route req) = true →
  (status (handle env w req).1 ≠ 401 →
     ∃ h t user, authorization req = Some h ∧ startsWith h "Bearer " = true ∧
                 split h "Bearer " !! 1%nat = Some t ∧
                 verifyIdToken env t = Ok user)
  ∧ (∀ h t e, authorization req = Some h → startsWith h "Bearer " = true →
       split h "Bearer " !! 1%nat = Some t → verifyIdToken env t = Throw e →
       (handle env w req).1 = json 401 (PMessage "Invalid or expired token")
       ∧ db (handle env w req).2 = db w
       ∧ claims (handle env w req).2 = claims w).
Proof.
  intros Hg. split.
  - intros Hst.
    destruct (verifyUser env req w) as [[res|user] w1] eqn:Hv.
    + exfalso. apply Hst. pose proof (verifyUser_answers env req w res w1 Hv) as H.
      unfold handle. destruct (route req); try discriminate Hg; rewrite Hv; exact H.
    + destruct (verifyUser_next_inv env req w user w1 Hv) as (h & t & H). eauto.
  - intros h t e Hh Hp Ht Hv.
    assert (H : verifyUser env req w
                = (inl (json 401 (PMessage "Invalid or expired token")),
                   log (CVerifyIdToken (Some t)) w)).
    { unfold verifyUser. rewrite Hh, (bearer_not_empty h Hp), Hp. cbn [negb orb].
      rewrite Ht, Hv. reflexivity. }
    unfold handle. destruct (route req); try discriminate Hg; rewrite H; auto.
Qed.

Lemma guarded_routes_need_token_witness :
  (handle healthy world0 (vote_request "forged" (JStr "A"))).1
    = json 401 (PMessage "Invalid or expired token")
  ∧ db (handle healthy world0 (vote_request "forged" (JStr "A"))).2 = seeded.
Proof.
  destruct (proj2 (guarded_routes_need_token healthy world0
                     (vote_request "forged" (JStr "A")) eq_refl)
              "Bearer forged" "forged"
              (mkError "Decoding Firebase ID token failed")
              eq_refl eq_refl eq_refl eq_refl) as (H1 & H2 & _).
  split; [exact H1 | exact H2].
Defined.

(* ===================================================================== *)
(** ** What a vote answers and changes *)
(* ===================================================================== *)



(* ===================================================================== *)
(** ** Counts and ballots *)
(* ===================================================================== *)








(* ===================================================================== *)
(** ** Who can write what *)
(* ===================================================================== *)

Lemma committed_vote_inv env w req s :
  committed_vote env w req = Some s →
  route req = ApiVote ∧ status (handle env w req).1 = 200.
Proof.
  unfold committed_vote, handle. destruct (route req); try discriminate.
  destruct (verifyUser env req w) as [[res|user] w1]; [discriminate|].
  destruct (status (vote env user req w1).1 =? 200)%nat eqn:Hs; [|discriminate].
  intros _. split; [reflexivity|]. apply Nat.eqb_eq, Hs.
Qed.

(** The claims after a request: as before, or one uid granted [admin] by
    an accepted make-admin of a caller whose token is an admin's. *)
Lemma handle_claims env w req :
  claims (handle env w req).2 = claims w
  ∨ (route req = MakeAdmin ∧
     ∃ user w1 s,
       verifyUser env req w = (inr user, w1) ∧ truthy (admin user) = true ∧
       body_uid req = JStr s ∧ s ≠ "" ∧ claims_refused env s = None ∧
       (handle env w req).1 = json 200 (PMessage "User is now admin!") ∧
       db (handle env w req).2 = db w ∧
       claims (handle env w req).2 = <[s := true]> (claims w)).
Proof.
  unfold handle. destruct (route req) eqn:Hr; cbn [snd]; auto.
  - left. unfold auth_linkedin_callback.
    destruct (truthy (query_code req)); [|reflexivity].
    destruct (linkedin_exchange env (query_code req)); reflexivity.
  - left. destruct (verifyUser env req w) as [[res|user] w1] eqn:Hv.
    + apply verifyUser_frame in Hv as (_ & Hcl & _). exact Hcl.
    + apply verifyUser_next in Hv as (_ & Hcl & _).
      destruct (vote_cases env user req w1) as [(_ & _ & H)|(_ & H & _)]; congruence.
  - left. unfold list_candidates. destruct (store_fault env); reflexivity.
  - left. destruct (verifyUser env req w) as [[res|user] w1] eqn:Hv.
    + apply verifyUser_frame in Hv as (_ & Hcl & _). exact Hcl.
    + apply verifyUser_next in Hv as (_ & Hcl & _).
      unfold list_voters. destruct (store_fault env); exact Hcl.
  - destruct (verifyUser env req w) as [[res|user] w1] eqn:Hv.
    + left. apply verifyUser_frame in Hv as (_ & Hcl & _). exact Hcl.
    + destruct (verifyUser_next env req w user w1 Hv) as (Hdb & Hcl & _).
      unfold requireAdmin. destruct (truthy (admin user)) eqn:Ha; cbn [negb];
        [|left; exact Hcl].
      unfold make_admin. destruct (truthy (body_uid req)) eqn:Ht; cbn [negb];
        [|left; exact Hcl].
      unfold setCustomUserClaims.
      destruct (body_uid req) as [| | | |s| |] eqn:Hu; try (left; exact Hcl).
      destruct (claims_refused env s) eqn:Hf; [left; exact Hcl|].
      right. split; [reflexivity|]. exists user, w1, s.
      cbn [fst snd claims db log]. rewrite Hcl, Hdb.
      repeat split; auto.
      intros ->. discriminate Ht.
Qed.

(** [X6]: a request changes the store only if it is a [POST /api/vote]
    answered 200, and changes the claims only if it is a [POST
    /make-admin] answered 200 whose caller's token carries a truthy
    [admin] claim; and no request ever takes the [admin] claim away from a
    uid that has it. *)
Theorem writes_are_confined env w req :
  (db (handle env w req).2 ≠ db w →
     route req = ApiVote ∧ status (handle env w req).1 = 200)
  ∧ (claims (handle env w req).2 ≠ claims w →
     route req = MakeAdmin ∧ status (handle env w req).1 = 200 ∧
     ∃ user w1, verifyUser env req w = (inr user, w1) ∧ truthy (admin user) = true)
  ∧ (∀ u, claims w !! u = Some true → claims (handle env w req).2 !! u = Some true).
Proof.
  split; [|split].
  - intros Hne. pose proof (handle_store env w req) as H.
    destruct (committed_vote env w req) as [s|] eqn:Hc; [|contradiction].
    eapply committed_vote_inv; eauto.
  - intros Hne.
    destruct (handle_claims env w req)
      as [H|(Hr & user & w1 & s & Hv & Ha & _ & _ & _ & Hres & _)]; [contradiction|].
    split; [exact Hr|]. split; [rewrite Hres; reflexivity|]. eauto.
  - intros u Hu.
    destruct (handle_claims env w req)
      as [H|(_ & user & w1 & s & _ & _ & _ & _ & _ & _ & _ & Hcl)];
      [rewrite H; exact Hu|].
    rewrite Hcl. destruct (decide (s = u)) as [->|Hne].
    + apply lookup_insert_eq.
    + rewrite lookup_insert_ne by exact Hne. exact Hu.
Qed.

Lemma writes_are_confined_witness :
  claims (handle healthy (mkWorld seeded (<["root" := true]> ∅) [])
            (make_admin_request "token-root" (JStr "u2"))).2 !! "root" = Some true.
Proof.
  exact (proj2 (proj2 (writes_are_confined healthy
                         (mkWorld seeded (<["root" := true]> ∅) [])
                         (make_admin_request "token-root" (JStr "u2"))))
           "root" eq_refl).
Defined.

(** [X7]: along a history in which no [POST /make-admin] is made with a
    token that carries a truthy [admin] claim, the claims never change:
    nobody becomes admin. *)
Theorem no_admin_no_grant reqs : ∀ w0,
  (∀ env req, (env, req) ∈ reqs → route req = MakeAdmin →
     ∀ w user w1, verifyUser env req w = (inr user, w1) →
                  truthy (admin user) = false) →
  claims (run w0 reqs).2 = claims w0.
Proof.
  induction reqs as [|[env req] rest IH]; intros w0 Hno; [reflexivity|].
  rewrite run_cons, IH.
  - destruct (handle_claims env w0 req)
      as [H|(Hr & user & w1 & s & Hv & Ha & _)]; [exact H|].
    rewrite (Hno env req (list_elem_of_here _ _) Hr w0 user w1 Hv) in Ha.
    discriminate.
  - intros env' req' Hin. apply Hno, list_elem_of_further, Hin.
Qed.

Lemma no_admin_no_grant_witness :
  claims (run world0 [(healthy, make_admin_request "token-u1" (JStr "u1"));
                      (healthy, make_admin_request "token-u2" (JStr "u2"))]).2 = ∅.
Proof.
  refine (no_admin_no_grant
            [(healthy, make_admin_request "token-u1" (JStr "u1"));
             (healthy, make_admin_request "token-u2" (JStr "u2"))] world0 _).
  intros env req Hin _ w user w1.
  apply elem_of_cons in Hin as [Hin|Hin].
  - injection Hin as -> ->. intros [= <- _]. reflexivity.
  - apply elem_of_cons in Hin as [Hin|Hin].
    + injection Hin as -> ->. intros [= <- _]. reflexivity.
    + apply elem_of_nil in Hin. contradiction.
Defined.

(* ===================================================================== *)
(** ** Granting the admin claim *)
(* ===================================================================== *)

(** [X8]: a [POST /make-admin] by a caller whose token carries a truthy
    [admin] claim, for a non-empty string uid that the identity service
    accepts, is answered 200 and sets the [admin] claim of exactly that
    uid: every other uid keeps what it had and the store is untouched.
    Granting again changes nothing. *)
Theorem make_admin_grants env w req user w1 s :
  route req = MakeAdmin →
  verifyUser env req w = (inr user, w1) →
  truthy (admin user) = true →
  body_uid req = JStr s → s ≠ "" →
  claims_refused env s = None →
  (handle env w req).1 = json 200 (PMessage "User is now admin!")
  ∧ claims (handle env w req).2 !! s = Some true
  ∧ (∀ u, u ≠ s → claims (handle env w req).2 !! u = claims w !! u)
  ∧ db (handle env w req).2 = db w
  ∧ (∃ t, calls (handle env w req).2
          = calls w ++ [CVerifyIdToken t; CSetCustomUserClaims (JStr s)])
  ∧ (∀ env' req' user' w1',
       route req' = MakeAdmin →
       verifyUser env' req' (handle env w req).2 = (inr user', w1') →
       body_uid req' = JStr s →
       claims (handle env' (handle env w req).2 req').2
       = claims (handle env w req).2).
Proof.
  intros Hr Hv Ha Hs Hne Hf.
  destruct (verifyUser_next env req w user w1 Hv) as (Hdb & Hcl & t & Hcalls).
  assert (Ht : truthy (JStr s) = true).
  { simpl. destruct (String.eqb_spec s ""); [contradiction|reflexivity]. }
  assert (H : handle env w req
              = (json 200 (PMessage "User is now admin!"),
                 mkWorld (db w1) (<[s := true]> (claims w1))
                   (calls w1 ++ [CSetCustomUserClaims (JStr s)]))).
  { unfold handle. rewrite Hr, Hv. unfold requireAdmin. rewrite Ha. cbn [negb].
    unfold make_admin. rewrite Hs, Ht. cbn [negb].
    unfold setCustomUserClaims. rewrite Hf. reflexivity. }
  rewrite H. cbn [fst snd claims db calls].
  split; [reflexivity|]. split; [apply lookup_insert_eq|].
  split; [intros u Hu; rewrite lookup_insert_ne by congruence; congruence|].
  split; [exact Hdb|]. split.
  { exists t. rewrite Hcalls, <- app_assoc. reflexivity. }
  intros env' req' user' w1' Hr' Hv' Hs'.
  destruct (handle_claims env'
              (mkWorld (db w1) (<[s := true]> (claims w1))
                 (calls w1 ++ [CSetCustomUserClaims (JStr s)])) req')
    as [Hsame|(_ & u2 & w2 & s2 & _ & _ & Hs2 & _ & _ & _ & _ & Hcl2)].
  - exact Hsame.
  - rewrite Hcl2. cbn [claims]. rewrite Hs' in Hs2. injection Hs2 as <-.
    apply insert_insert_eq.
Qed.

Lemma make_admin_grants_witness :
  (handle healthy world0 (make_admin_request "token-root" (JStr "u2"))).1
    = json 200 (PMessage "User is now admin!")
  ∧ claims (handle healthy world0 (make_admin_request "token-root" (JStr "u2"))).2
      !! "u2" = Some true.
Proof.
  assert (Hne : "u2" ≠ "") by discriminate.
  destruct (make_admin_grants healthy world0
              (make_admin_request "token-root" (JStr "u2"))
              (mkToken "root" (JStr "Root") (JBool true))
              (mkWorld seeded ∅ [CVerifyIdToken (Some "token-root")])
              "u2" eq_refl eq_refl eq_refl eq_refl Hne eq_refl) as (H1 & H2 & _).
  split; [exact H1 | exact H2].
Defined.

(** [X9]: a [POST /make-admin] by an admin whose body has no [uid], or a
    falsy one such as the empty string, is answered 400 [UID required];
    the claims and the store are as before and the claim-granting call is
    not made. *)
Theorem make_admin_needs_uid env w req user w1 :
  route req = MakeAdmin →
  verifyUser env req w = (inr user, w1) →
  truthy (admin user) = true →
  truthy (body_uid req) = false →
  handle env w req = (json 400 (PMessage "UID required"), w1)
  ∧ claims (handle env w req).2 = claims w
  ∧ db (handle env w req).2 = db w
  ∧ (∀ u, CSetCustomUserClaims u ∈ calls (handle env w req).2 →
          CSetCustomUserClaims u ∈ calls w).
Proof.
  intros Hr Hv Ha Hu.
  destruct (verifyUser_next env req w user w1 Hv) as (Hdb & Hcl & t & Hcalls).
  assert (H : handle env w req = (json 400 (PMessage "UID required"), w1)).
  { unfold handle. rewrite Hr, Hv. unfold requireAdmin. rewrite Ha. cbn [negb].
    unfold make_admin. rewrite Hu. reflexivity. }
  rewrite H. cbn [fst snd]. repeat split; auto.
  intros u. rewrite Hcalls, elem_of_app, list_elem_of_singleton.
  intros [Hin|Heq]; [exact Hin|discriminate].
Qed.

Lemma make_admin_needs_uid_witness :
  handle healthy world0 (make_admin_request "token-root" (JStr ""))
  = (json 400 (PMessage "UID required"),
     mkWorld seeded ∅ [CVerifyIdToken (Some "token-root")]).
Proof.
  exact (proj1 (make_admin_needs_uid healthy world0
                  (make_admin_request "token-root" (JStr ""))
                  (mkToken "root" (JStr "Root") (JBool true))
                  (mkWorld seeded ∅ [CVerifyIdToken (Some "token-root")])
                  eq_refl eq_refl eq_refl eq_refl)).
Defined.

(* ===================================================================== *)
(** ** The two listings *)
(* ===================================================================== *)

(** [X10]: with the store reachable, [GET /api/candidates] answers 200
    with exactly the stored candidates, nothing filtered out: a pair of
    id and document is listed if and only if it is stored, no id is
    listed twice, there are as many entries as candidates, and the store
    is left as it was.  No credential is needed. *)
Theorem list_candidates_exact env w req :
  route req = ApiCandidates →
  store_fault env = None →
  ∃ l,
    (handle env w req).1 = json 200 (PCandidates l)
    ∧ (∀ id c, (id, c) ∈ l ↔ candidates (db w) !! id = Some c)
    ∧ NoDup (l.*1)
    ∧ length l = size (candidates (db w))
    ∧ db (handle env w req).2 = db w.
Proof.
  intros Hr Hf. exists (map_to_list (candidates (db w))).
  unfold handle. rewrite Hr. unfold list_candidates. rewrite Hf. cbn [fst snd].
  split; [reflexivity|]. split; [intros id c; apply elem_of_map_to_list|].
  split; [apply NoDup_fst_map_to_list|].
  split; [apply length_map_to_list|reflexivity].
Qed.

Lemma list_candidates_exact_witness :
  ∃ l, (handle healthy world0 candidates_request).1 = json 200 (PCandidates l)
       ∧ length l = 2.
Proof.
  destruct (list_candidates_exact healthy world0 candidates_request eq_refl eq_refl)
    as (l & H1 & _ & _ & H2 & _).
  exists l. split; [exact H1|]. rewrite H2. vm_compute. reflexivity.
Defined.

(** [X11]: with the store reachable, an authenticated [GET /api/voters]
    answers 200 with exactly one projection per stored voter record,
    carrying the record's key as [userId] and its name, profile, candidate
    and timestamp; no [userId] is listed twice, and the store is left as
    it was. *)
Theorem list_voters_exact env w req user w1 :
  route req = ApiVoters →
  verifyUser env req w = (inr user, w1) →
  store_fault env = None →
  ∃ l,
    (handle env w req).1 = json 200 (PVoters l)
    ∧ (∀ v, v ∈ l ↔ ∃ rec, voters (db w) !! v_userId v = Some rec ∧
                            v = view_of (v_userId v) rec)
    ∧ (∀ u rec, voters (db w) !! u = Some rec → view_of u rec ∈ l)
    ∧ NoDup (v_userId <$> l)
    ∧ length l = size (voters (db w))
    ∧ db (handle env w req).2 = db w.
Proof.
  intros Hr Hv Hf.
  destruct (verifyUser_next env req w user w1 Hv) as (Hdb & _).
  exists ((fun d : string * VoterDoc => view_of d.1 d.2)
            <$> map_to_list (voters (db w))).
  unfold handle. rewrite Hr, Hv. unfold list_voters. rewrite Hf, Hdb.
  cbn [fst snd db log].
  split; [reflexivity|]. split; [|split; [|split; [|split]]].
  - intros v. rewrite list_elem_of_fmap. split.
    + intros ([u rec] & -> & Hin). apply elem_of_map_to_list in Hin.
      exists rec. split; [exact Hin|reflexivity].
    + intros (rec & Hrec & Hv'). exists (v_userId v, rec).
      split; [exact Hv'|]. apply elem_of_map_to_list. exact Hrec.
  - intros u rec Hrec. apply list_elem_of_fmap. exists (u, rec).
    split; [reflexivity|]. apply elem_of_map_to_list. exact Hrec.
  - rewrite <- list_fmap_compose.
    apply (NoDup_fst_map_to_list (voters (db w))).
  - rewrite length_fmap. apply length_map_to_list.
  - exact Hdb.
Qed.

Lemma list_voters_exact_witness :
  ∃ l, (handle healthy world1 (voters_request "token-u2")).1 = json 200 (PVoters l)
       ∧ view_of "u1" (mkVoter (JStr "Uma") (JStr "A") JNull (Some 7)) ∈ l.
Proof.
  destruct (list_voters_exact healthy world1 (voters_request "token-u2")
              (mkToken "u2" JUndefined JUndefined)
              (mkWorld after_u1 ∅ [CVerifyIdToken (Some "token-u2")])
              eq_refl eq_refl eq_refl) as (l & H1 & _ & H2 & _).
  exists l. split; [exact H1|]. apply H2. vm_compute. reflexivity.
Defined.




(* ===================================================================== *)
(** ** Worked inputs *)
(* ===================================================================== *)

(** A candidate id with a trailing slash is a vote for the candidate
    without it, stored as given; an id with two segments is not a document
    and is answered 400 before any transaction; a profile with an empty
    field name is refused inside the transaction and nothing is written. *)
Example slashes_and_profiles :
  (handle healthy world0 (vote_request "token-u2" (JStr "A/"))).1
    = json 200 (PMessage "Vote successful!")
  ∧ votes <$> candidates
                (db (handle healthy world0 (vote_request "token-u2" (JStr "A/"))).2)
                !! "A" = Some 1%Z
  ∧ candidateId <$> voters
                      (db (handle healthy world0
                             (vote_request "token-u2" (JStr "A/"))).2)
                      !! "u2" = Some (JStr "A/")
  ∧ handle healthy world0 (vote_request "token-u2" (JStr "A/B"))
    = (json 400 (PMessage "Path must point to a document"),
       mkWorld seeded ∅ [CVerifyIdToken (Some "token-u2")])
  ∧ (handle healthy world0
       (profile_vote_request "token-u2" (JStr "A") (JObj [("", JNum 1)]))).1
    = json 400 (PMessage "Field name must not be empty")
  ∧ db (handle healthy world0
          (profile_vote_request "token-u2" (JStr "A") (JObj [("", JNum 1)]))).2
    = seeded.
Proof. vm_compute. repeat split; reflexivity. Qed.
